(** * NNUE evaluation front end: parameter file protocol and score cache

    A shallow embedding of [src/nnue/evaluate_nnue.cpp] (namespace
    [Eval::NNUE]): the versioned, hash-tagged parameter container
    ([ReadHeader], [WriteHeader], [ReadParameters], [WriteParameters]),
    the loader [load_eval_file] and the cached scoring function
    [ComputeScore] with its two entry points [evaluate] and [compute_eval].

    Conventions of the embedding.
    - A [std::uint32_t] is a [Z] in the range [0, 2^32).
    - A byte is a [Byte.byte]; a stream carries a [list byte].
    - [std::istream] and [std::ostream] are records holding the bytes that
      are still unread (resp. already written) and the [iostate] flags the
      code tests.
    - The two stage objects ([FeatureTransformer], [Network]) are opaque
      here: their headers are not part of this translation unit.  A stage is
      a record of the static members and methods the code calls, acting on
      the object's storage, a block of [sizeof(T)] bytes.
    - Global variables live in a record [World]; functions that touch them
      run in the monad [M], whose failure case stands for dereferencing a
      null [AlignedPtr] (undefined behaviour in the source).
    - Calls that leave this translation unit (stage methods, opening a
      file, console output) are recorded, in order, in the ghost field
      [log] of the world.

    The table [kpp_board_index] and [update_eval], which forwards to the
    feature transformer, take no part in the properties stated here and
    are left out. *)

From Stdlib Require Import String Strings.Byte.
From Stdlib Require Import ZArith List Bool Lia.
Import ListNotations.
Local Open Scope Z_scope.

(** ** Bytes and fixed-width integers *)

Definition byte_to_Z (b : byte) : Z := Z.of_N (Byte.to_N b).

Definition byte_of_Z (z : Z) : byte :=
  match Byte.of_N (Z.to_N (z mod 256)) with
  | Some b => b
  | None => x00
  end.

(** Little-endian value of a byte sequence: first byte least significant. *)
Fixpoint le_decode (bs : list byte) : Z :=
  match bs with
  | [] => 0
  | b :: bs' => byte_to_Z b + 256 * le_decode bs'
  end.

(** The [n] low-order bytes of [v], least significant first. *)
Fixpoint le_encode (n : nat) (v : Z) : list byte :=
  match n with
  | O => []
  | S n' => byte_of_Z v :: le_encode n' (v / 256)
  end.

Definition u32_max : Z := 2 ^ 32.

(** [static_cast<std::uint32_t>] of a non-negative size. *)
Definition to_u32 (z : Z) : Z := z mod u32_max.

(** Byte order of the machine the program runs on.  The source writes
    integers with [stream.write(reinterpret_cast<const char*>(&x), sizeof(x))],
    which emits the object representation of [x]; that representation is
    fixed by the host. *)
Inductive ByteOrder : Type := LittleEndian | BigEndian.

Definition object_representation (host : ByteOrder) (v : Z) : list byte :=
  match host with
  | LittleEndian => le_encode 4 v
  | BigEndian => rev (le_encode 4 v)
  end.

(** ** Input streams *)

(** [rest] is what has not been extracted yet; [eofbit] and [failbit] are
    the [iostate] flags ([badbit] is folded into [failbit]: the code only
    asks [fail()], [operator!] and [operator bool]). *)
Record istream : Type := mk_istream {
  rest : list byte;
  eofbit : bool;
  failbit : bool
}.

Definition istream_of (bs : list byte) : istream := mk_istream bs false false.

Definition good (s : istream) : bool := negb (eofbit s) && negb (failbit s).

(** [stream.read(buf, n)]: an unformatted input function.  On a stream
    that is not [good()] the sentry sets [failbit] and nothing is
    extracted; otherwise [n] bytes are extracted, or all that is left
    together with [eofbit | failbit] when fewer than [n] remain. *)
Definition istream_read (s : istream) (n : nat) : list byte * istream :=
  if good s then
    if (n <=? length (rest s))%nat
    then (firstn n (rest s), mk_istream (skipn n (rest s)) false false)
    else (rest s, mk_istream [] true true)
  else ([], mk_istream (rest s) (eofbit s) true).

(** [stream.peek()]: [None] stands for [traits_type::eof()]. *)
Definition istream_peek (s : istream) : option byte * istream :=
  if good s then
    match rest s with
    | [] => (None, mk_istream [] true false)
    | b :: _ => (Some b, s)
    end
  else (None, mk_istream (rest s) (eofbit s) true).

(** Modelled from the spec: [read_little_endian<std::uint32_t>], declared
    in a header outside this translation unit.  Section 4.1: integers are
    little-endian whatever the host; a read past the end fails and no
    partial value is returned (the value [0] below is never inspected by a
    caller, which tests the stream first). *)
Definition read_little_endian (s : istream) : Z * istream :=
  let '(bs, s') := istream_read s 4 in
  (if failbit s' then 0 else le_decode bs, s').

(** ** Output streams *)

Record ostream : Type := mk_ostream {
  written : list byte;
  ofailbit : bool
}.

Definition ostream_empty : ostream := mk_ostream [] false.

(** [stream.write(buf, n)]: nothing is inserted into a failed stream. *)
Definition ostream_write (o : ostream) (bs : list byte) : ostream :=
  if ofailbit o then o else mk_ostream (written o ++ bs) false.

(** ** Files *)

Definition FileSystem : Type := string -> option (list byte).

(** [std::ifstream stream(name, std::ios::binary)]: a file that cannot be
    opened yields a stream with [failbit] set. *)
Definition ifstream (fs : FileSystem) (name : string) : istream :=
  match fs name with
  | Some bs => istream_of bs
  | None => mk_istream [] false true
  end.

(** ** Stage objects *)

(** Storage of an object: its [sizeof(T)] bytes. *)
Definition storage : Type := list byte.

(** What the code uses of a stage class [T]: [sizeof(T)], the static
    members [GetHashValue] and [GetStructureString], and the methods
    [ReadParameters] and [WriteParameters], which act on the object's
    storage and on the stream they are handed. *)
Module Stage.
Record t : Type := mk {
  sizeof : nat;
  GetHashValue : Z;
  GetStructureString : string;
  ReadParameters : istream -> storage -> bool * storage * istream;
  WriteParameters : ostream -> storage -> bool * ostream
}.
End Stage.

(** ** Positions *)

(** [Accumulator]: the fields [score] and [computed_score] are the ones
    this file reads and writes; [accumulation] and [computed_accumulation]
    belong to the feature transformer. *)
Record Accumulator (AccData : Type) : Type := mk_accumulator {
  accumulation : AccData;
  score : Z;
  computed_accumulation : bool;
  computed_score : bool
}.
Arguments mk_accumulator {AccData}.
Arguments accumulation {AccData}.
Arguments score {AccData}.
Arguments computed_accumulation {AccData}.
Arguments computed_score {AccData}.

(** A position as seen from here: [pos.state()->accumulator] and
    everything else ([board]). *)
Record Position (AccData Board : Type) : Type := mk_position {
  accumulator : Accumulator AccData;
  board : Board
}.
Arguments mk_position {AccData Board}.
Arguments accumulator {AccData Board}.
Arguments board {AccData Board}.

(** ** Compile-time configuration

    Constants, types and stage classes that come from headers outside
    this translation unit ([evaluate_nnue.h], [nnue_architecture.h], ...),
    and the byte order of the host.  [kVersion] and [kHashValue] are
    [std::uint32_t] constants; [FV_SCALE] is a non-zero [int] constant. *)
Class Architecture : Type := {
  kVersion : Z;
  kHashValue : Z;
  FV_SCALE : Z;
  host : ByteOrder;
  FeatureTransformer : Stage.t;
  Network : Stage.t;
  AccData : Type;
  Board : Type;
  TransformedFeatures : Type;
  (** [feature_transformer->Transform(pos, output, refresh)]: fills
      [output]; it may update the accumulator reachable from [pos]. *)
  Transform : storage -> Position AccData Board -> bool ->
              TransformedFeatures * Position AccData Board;
  (** [network->Propagate(transformed_features, buffer)]: the output array. *)
  Propagate : storage -> TransformedFeatures -> list Z
}.

Definition Pos `{Architecture} : Type := Position AccData Board.

(** ** Global state and effects *)

Inductive StageId : Type := FeatureTransformerId | NetworkId.

(** Calls that leave the translation unit: [T::ReadParameters] and
    [T::WriteParameters] on a stage object, [Transform], [Propagate], the
    construction of a [std::ifstream], a line sent to [std::cout]. *)
Inductive Event : Type :=
| EvDeserialize (m : StageId)
| EvSerialize (m : StageId)
| EvTransform (refresh : bool)
| EvPropagate
| EvOpen (name : string)
| EvCout (line : string).

(** [AlignedPtr<T>]: null, or the storage of the object it owns. *)
Definition AlignedPtr : Type := option storage.

Record World : Type := mk_world {
  feature_transformer : AlignedPtr;
  network : AlignedPtr;
  fileName : string;
  savedfileName : string;
  log : list Event
}.

(** Program start: both pointers null, [savedfileName = "nn.bin"]. *)
Definition initial_world : World :=
  mk_world None None "" "nn.bin" [].

Definition M (A : Type) : Type := World -> option (A * World).

Definition ret {A} (a : A) : M A := fun w => Some (a, w).

Definition bind {A B} (c : M A) (k : A -> M B) : M B :=
  fun w => match c w with
           | Some (a, w') => k a w'
           | None => None
           end.

Declare Scope nnue_scope.
Delimit Scope nnue_scope with nnue.
Notation "x <- c ;; k" := (bind c (fun x => k))
  (at level 61, c at next level, right associativity) : nnue_scope.
Notation "' p <- c ;; k" := (bind c (fun x => let 'p := x in k))
  (at level 61, p pattern, c at next level, right associativity) : nnue_scope.
Notation "c ;; k" := (bind c (fun _ => k))
  (at level 61, right associativity) : nnue_scope.
Local Open Scope nnue_scope.

Definition stage_of `{Architecture} (m : StageId) : Stage.t :=
  match m with
  | FeatureTransformerId => FeatureTransformer
  | NetworkId => Network
  end.

Definition pointer_of (m : StageId) (w : World) : AlignedPtr :=
  match m with
  | FeatureTransformerId => feature_transformer w
  | NetworkId => network w
  end.

Definition set_pointer (m : StageId) (p : AlignedPtr) (w : World) : World :=
  match m with
  | FeatureTransformerId =>
      mk_world p (network w) (fileName w) (savedfileName w) (log w)
  | NetworkId =>
      mk_world (feature_transformer w) p (fileName w) (savedfileName w) (log w)
  end.

(** [pointer->...]: undefined on a null pointer. *)
Definition deref (m : StageId) : M storage :=
  fun w => match pointer_of m w with
           | Some obj => Some (obj, w)
           | None => None
           end.

Definition assign (m : StageId) (p : AlignedPtr) : M unit :=
  fun w => Some (tt, set_pointer m p w).

Definition set_fileName (name : string) : M unit :=
  fun w => Some (tt, mk_world (feature_transformer w) (network w) name
                              (savedfileName w) (log w)).

Definition emit (e : Event) : M unit :=
  fun w => Some (tt, mk_world (feature_transformer w) (network w) (fileName w)
                              (savedfileName w) (log w ++ [e])).

(** The world [w] after the external calls [es] have been recorded. *)
Definition record_events (w : World) (es : list Event) : World :=
  mk_world (feature_transformer w) (network w) (fileName w)
           (savedfileName w) (log w ++ es).

(** ** The translation unit *)

(** [GetArchitectureString] *)
Definition GetArchitectureString `{Architecture} : string :=
  ("Features=" ++ Stage.GetStructureString FeatureTransformer ++
   ",Network=" ++ Stage.GetStructureString Network)%string.

Module Detail.

(** [Detail::Initialize<T>]: a fresh block of [sizeof(T)] bytes (the
    allocation is taken to succeed), then [memset] to zero. *)
Definition Initialize `{Architecture} (m : StageId) : M unit :=
  assign m (Some (repeat x00 (Stage.sizeof (stage_of m)))).

(** [Detail::ReadParameters<T>] *)
Definition ReadParameters `{Architecture} (m : StageId) (stream : istream)
  : M (bool * istream) :=
  let '(header, stream) := read_little_endian stream in
  if failbit stream || negb (header =? Stage.GetHashValue (stage_of m))
  then ret (false, stream)
  else
    obj <- deref m ;;
    emit (EvDeserialize m) ;;
    let '(ok, obj', stream') := Stage.ReadParameters (stage_of m) stream obj in
    assign m (Some obj') ;;
    ret (ok, stream').

(** [Detail::WriteParameters<T>] *)
Definition WriteParameters `{Architecture} (m : StageId) (stream : ostream)
  : M (bool * ostream) :=
  let header := Stage.GetHashValue (stage_of m) in
  let stream := ostream_write stream (object_representation host header) in
  obj <- deref m ;;
  emit (EvSerialize m) ;;
  ret (Stage.WriteParameters (stage_of m) stream obj).

End Detail.

(** [Initialize] *)
Definition Initialize `{Architecture} : M unit :=
  Detail.Initialize FeatureTransformerId ;;
  Detail.Initialize NetworkId.

(** [ReadHeader].  The out-parameters [*hash_value] and [*architecture]
    are returned; [architecture] is the caller's string on entry.  The
    three fixed-width fields are read first and the version is tested
    after them; [resize] is taken to succeed. *)
Definition ReadHeader `{Architecture} (stream : istream) (architecture : list byte)
  : bool * Z * list byte * istream :=
  let '(version, stream) := read_little_endian stream in
  let '(hash_value, stream) := read_little_endian stream in
  let '(size, stream) := read_little_endian stream in
  if failbit stream || negb (version =? kVersion)
  then (false, hash_value, architecture, stream)
  else
    (* resize(size) cuts the caller's string or pads it with '\0' *)
    let resized :=
      firstn (Z.to_nat size) architecture ++
      repeat x00 (Z.to_nat size - length architecture) in
    let '(got, stream) := istream_read stream (Z.to_nat size) in
    (* read overwrites the first characters with what it extracted *)
    let architecture := got ++ skipn (length got) resized in
    (negb (failbit stream), hash_value, architecture, stream).

(** [WriteHeader] *)
Definition WriteHeader `{Architecture} (stream : ostream) (hash_value : Z)
  (architecture : string) : bool * ostream :=
  let stream := ostream_write stream (object_representation host kVersion) in
  let stream := ostream_write stream (object_representation host hash_value) in
  let size := to_u32 (Z.of_nat (String.length architecture)) in
  let stream := ostream_write stream (object_representation host size) in
  let stream :=
    ostream_write stream (firstn (Z.to_nat size) (list_byte_of_string architecture)) in
  (negb (ofailbit stream), stream).

(** [ReadParameters] *)
Definition ReadParameters `{Architecture} (stream : istream) : M (bool * istream) :=
  let '(ok, hash_value, architecture, stream) := ReadHeader stream [] in
  if negb ok then ret (false, stream) else
  if negb (hash_value =? kHashValue) then ret (false, stream) else
  '(ok, stream) <- Detail.ReadParameters FeatureTransformerId stream ;;
  if negb ok then ret (false, stream) else
  '(ok, stream) <- Detail.ReadParameters NetworkId stream ;;
  if negb ok then ret (false, stream) else
  if failbit stream then ret (false, stream) else
  let '(c, stream) := istream_peek stream in
  ret (match c with None => true | Some _ => false end, stream).

(** [WriteParameters] *)
Definition WriteParameters `{Architecture} (stream : ostream) : M (bool * ostream) :=
  let '(ok, stream) := WriteHeader stream kHashValue GetArchitectureString in
  if negb ok then ret (false, stream) else
  '(ok, stream) <- Detail.WriteParameters FeatureTransformerId stream ;;
  if negb ok then ret (false, stream) else
  '(ok, stream) <- Detail.WriteParameters NetworkId stream ;;
  if negb ok then ret (false, stream) else
  ret (negb (ofailbit stream), stream).

(** [ComputeScore].  [accumulator] is a reference into the position, so
    the two assignments at the end act on the position as [Transform] left
    it.  [output[0] / FV_SCALE] is C++ integer division. *)
Definition ComputeScore `{Architecture} (pos : Pos) (refresh : bool) : M (Z * Pos) :=
  if negb refresh && computed_score (accumulator pos)
  then ret (score (accumulator pos), pos)
  else
    ft <- deref FeatureTransformerId ;;
    emit (EvTransform refresh) ;;
    let '(transformed_features, pos) := Transform ft pos refresh in
    net <- deref NetworkId ;;
    emit EvPropagate ;;
    let output := Propagate net transformed_features in
    let score := Z.quot (nth 0 output 0) FV_SCALE in
    let acc := accumulator pos in
    let acc := mk_accumulator (accumulation acc) score
                              (computed_accumulation acc) true in
    ret (score, mk_position acc (board pos)).

(** [Options]: name to value, as converted to [bool]. *)
Definition OptionsMap : Type := string -> bool.

(** [load_eval_file] *)
Definition load_eval_file `{Architecture} (fs : FileSystem) (Options : OptionsMap)
  (evalFile : string) : M bool :=
  Initialize ;;
  if Options "SkipLoadingEval"%string then
    emit (EvCout "info string SkipLoadingEval set to true, Net not loaded!") ;;
    ret true
  else
    set_fileName evalFile ;;
    emit (EvOpen evalFile) ;;
    let stream := ifstream fs evalFile in
    '(result, _) <- ReadParameters stream ;;
    ret result.

(** [evaluate] *)
Definition evaluate `{Architecture} (pos : Pos) : M (Z * Pos) :=
  ComputeScore pos false.

(** [compute_eval] *)
Definition compute_eval `{Architecture} (pos : Pos) : M (Z * Pos) :=
  ComputeScore pos true.

(** ** A small concrete architecture

    Stages whose parameters are a fixed number of raw bytes, read and
    written in one block: the simplest classes that fit the interface.
    They instantiate the general results below on concrete data. *)

Definition raw_stage (n : nat) (hash : Z) (name : string) : Stage.t :=
  Stage.mk n hash name
    (fun stream obj =>
       let '(got, stream') := istream_read stream n in
       (negb (failbit stream'), got ++ skipn (length got) obj, stream'))
    (fun stream obj =>
       let stream' := ostream_write stream obj in
       (negb (ofailbit stream'), stream')).

Definition sum_bytes (bs : list byte) : Z :=
  fold_right (fun b acc => byte_to_Z b + acc) 0 bs.

Definition small_architecture (h : ByteOrder) : Architecture := {|
  kVersion := 0x7AF32F16;
  kHashValue := Z.lxor 0x5D69D7B8 0x63337156;
  FV_SCALE := 16;
  host := h;
  FeatureTransformer := raw_stage 2 0x5D69D7B8 "HalfKP";
  Network := raw_stage 1 0x63337156 "AffineTransform";
  AccData := list byte;
  Board := nat;
  TransformedFeatures := list byte;
  Transform := fun ft pos refresh =>
    (ft, mk_position (mk_accumulator ft (score (accumulator pos)) true false)
                     (board pos));
  Propagate := fun net tf => [sum_bytes net * 100 + sum_bytes tf]
|}.

Definition small_world : World :=
  mk_world (Some [x20; x03]) (Some [x07]) "" "nn.bin" [].

(** A well-formed file for [small_architecture]. *)
Definition small_file : list byte :=
  [x16; x2f; xf3; x7a] ++ [xee; xa6; x5a; x3e] ++ [x02; x00; x00; x00] ++
  [x68; x69] ++
  [xb8; xd7; x69; x5d] ++ [x11; x22] ++
  [x56; x71; x33; x63] ++ [x33].

(** [small_file] with [format_version] incremented by one. *)
Definition bad_version_file : list byte :=
  [x17; x2f; xf3; x7a] ++ skipn 4 small_file.

(** [small_file] with one bit of [model_hash] flipped. *)
Definition bad_hash_file : list byte :=
  firstn 4 small_file ++ [xef; xa6; x5a; x3e] ++ skipn 8 small_file.

(** [small_file] with one bit of the first stage hash flipped. *)
Definition bad_stage1_file : list byte :=
  firstn 14 small_file ++ [xb9; xd7; x69; x5d] ++ skipn 18 small_file.

(** [small_file] with one bit of the second stage hash flipped. *)
Definition bad_stage2_file : list byte :=
  firstn 20 small_file ++ [x56; x71; x33; x62] ++ skipn 24 small_file.

(** * Vocabulary of the properties *)

(** The world [w] with both stage objects freshly allocated and cleared:
    what [Initialize] leaves behind. *)
Definition cleared `{Architecture} (w : World) : World :=
  mk_world (Some (repeat x00 (Stage.sizeof FeatureTransformer)))
           (Some (repeat x00 (Stage.sizeof Network)))
           (fileName w) (savedfileName w) (log w).

(** The world [w] with other stage pointers. *)
Definition with_stages (p q : AlignedPtr) (w : World) : World :=
  mk_world p q (fileName w) (savedfileName w) (log w).

(** What a caller of [ReadParameters] can observe once the local stream
    is gone: the result and the world. *)
Definition verdict {S : Type} (x : option ((bool * S) * World))
  : option (bool * World) :=
  option_map (fun x => (fst (fst x), snd x)) x.

(** Both stage pointers are non-null. *)
Definition allocated (w : World) : Prop :=
  feature_transformer w <> None /\ network w <> None.

(** Storage that [memset] has just cleared. *)
Definition zero_filled (obj : storage) : Prop := Forall (fun b => b = x00) obj.

(** ** Contract of a stage class

    The stage classes are defined elsewhere; results that depend on what
    their [ReadParameters] and [WriteParameters] do are stated for classes
    that honour the serialization contract. *)

(** Modelled from the spec: the stage classes are not part of this
    translation unit; section 4.2 asks that [deserialize] consume exactly
    the bytes [serialize] produced for the same state.
    Symmetry: on a usable stream, [WriteParameters] succeeds and appends
    some bytes; [ReadParameters], handed those bytes followed by anything,
    succeeds, rebuilds the object that was written and stops right after
    them. *)
Class Symmetric (T : Stage.t) : Prop := {
  write_then_read : forall (o : ostream) (obj : storage),
    length obj = Stage.sizeof T ->
    ofailbit o = false ->
    exists bs,
      Stage.WriteParameters T o obj = (true, mk_ostream (written o ++ bs) false) /\
      forall (obj0 : storage) (r : list byte),
        length obj0 = Stage.sizeof T ->
        Stage.ReadParameters T (istream_of (bs ++ r)) obj0 = (true, obj, istream_of r)
}.

(** A step of the reader: from a stream to a success flag, a result and
    the stream it leaves, or nothing when the step is undefined. *)
Definition reader (A : Type) : Type := istream -> option (bool * A * istream).

(** A step reads an exact range when each success consumes a prefix of the
    stream, depends on that prefix only, and turns into a failure as soon
    as the prefix is cut short. *)
Definition exact_range {A : Type} (run : reader A) : Prop :=
  forall (b : list byte) (a : A) (s' : istream),
    run (istream_of b) = Some (true, a, s') ->
    exists k,
      (k <= length b)%nat /\
      s' = istream_of (skipn k b) /\
      (forall r, run (istream_of (firstn k b ++ r)) = Some (true, a, istream_of r)) /\
      (forall j, (j < k)%nat ->
                 exists a' t, run (istream_of (firstn j b)) = Some (false, a', t)).

(** Sequencing as the code does it: a failed step ends the read. *)
Definition and_then {A B : Type}
  (run1 : reader A) (run2 : A -> reader B) (on_fail : A -> B) : reader B :=
  fun s =>
    match run1 s with
    | None => None
    | Some (ok, a, s1) => if ok then run2 a s1 else Some (false, on_fail a, s1)
    end.

Definition stage_reader (T : Stage.t) (obj : storage) : reader storage :=
  fun s => Some (Stage.ReadParameters T s obj).

(** Modelled from the spec: the stage classes are not part of this
    translation unit; section 4.2 asks that [deserialize] read exactly the
    byte range of its stage.  Exact range for a stage class: its
    [ReadParameters] is a reader with an exact range. *)
Class ExactRange (T : Stage.t) : Prop := {
  read_range : forall obj : storage, exact_range (stage_reader T obj)
}.

(** The steps of [ReadParameters] as readers: the header with the
    container hash check, a stage block, and both blocks in order. *)
Definition header_reader `{Architecture} : reader unit :=
  fun s =>
    let '(ok, hash_value, _, s1) := ReadHeader s [] in
    Some (ok && (hash_value =? kHashValue), tt, s1).

Definition block_reader `{Architecture} (m : StageId) (w : World) : reader World :=
  fun s =>
    match Detail.ReadParameters m s w with
    | None => None
    | Some ((ok, s'), w') => Some (ok, w', s')
    end.

Definition container_reader `{Architecture} (w : World) : reader World :=
  and_then header_reader
    (fun _ => and_then (block_reader FeatureTransformerId w)
                       (block_reader NetworkId) (fun w1 => w1))
    (fun _ => w).

(** The world after stage [m] was deserialized into [obj']. *)
Definition deserialized (m : StageId) (obj' : storage) (w : World) : World :=
  set_pointer m (Some obj') (record_events w [EvDeserialize m]).

(** The call [pointer->ReadParameters(stream)] on stage [m]. *)
Definition stage_step `{Architecture} (m : StageId) (w : World) : reader World :=
  fun s =>
    match pointer_of m w with
    | None => None
    | Some obj =>
        let '(ok, obj', s') := Stage.ReadParameters (stage_of m) s obj in
        Some (ok, deserialized m obj' w, s')
    end.

(** The bytes of the header as [WriteHeader] emits them. *)
Definition header_bytes `{Architecture} (hash_value : Z) (architecture : string)
  : list byte :=
  let size := to_u32 (Z.of_nat (String.length architecture)) in
  object_representation host kVersion ++
  object_representation host hash_value ++
  object_representation host size ++
  firstn (Z.to_nat size) (list_byte_of_string architecture).

(** A whole file: header, then each stage hash followed by the bytes the
    stage wrote. *)
Definition container_bytes `{Architecture} (bft bnet : list byte) : list byte :=
  header_bytes kHashValue GetArchitectureString ++
  object_representation host (Stage.GetHashValue FeatureTransformer) ++ bft ++
  object_representation host (Stage.GetHashValue Network) ++ bnet.

(** The world after both stages were serialized. *)
Definition serialized (w : World) : World :=
  record_events (record_events w [EvSerialize FeatureTransformerId])
                [EvSerialize NetworkId].

(** A 32-bit field that must hold a given value. *)
Definition expect_u32 (c : Z) : reader unit :=
  fun s =>
    let '(v, s1) := read_little_endian s in
    Some (negb (failbit s1 || negb (v =? c)), tt, s1).

(** The constants that the code stores in [std::uint32_t] fit in 32 bits. *)
Class WellTyped (A : Architecture) : Prop := {
  kVersion_u32 : 0 <= kVersion < u32_max;
  kHashValue_u32 : 0 <= kHashValue < u32_max;
  stage_hash_u32 : forall m, 0 <= Stage.GetHashValue (stage_of m) < u32_max
}.

Ltac run_monad :=
  cbv [bind ret deref assign emit set_fileName pointer_of set_pointer] in *;
  cbn [feature_transformer network fileName savedfileName log] in *.

(** ** The piece-square base table

    [kpp_board_index[PIECE_NB][COLOR_NB]]: for each piece code (0..15) and
    each perspective (0 = white, 1 = black), the base index of the piece
    as seen from that side.  The [PS_*] constants come from a header
    outside this translation unit. *)
Class PieceSquareBase : Type := {
  PS_NONE : Z;
  PS_W_PAWN : Z;   PS_B_PAWN : Z;
  PS_W_KNIGHT : Z; PS_B_KNIGHT : Z;
  PS_W_BISHOP : Z; PS_B_BISHOP : Z;
  PS_W_ROOK : Z;   PS_B_ROOK : Z;
  PS_W_QUEEN : Z;  PS_B_QUEEN : Z;
  PS_W_KING : Z;   PS_B_KING : Z
}.

Definition kpp_board_index `{PieceSquareBase} : list (list Z) :=
  [ [ PS_NONE;     PS_NONE     ];
    [ PS_W_PAWN;   PS_B_PAWN   ];
    [ PS_W_KNIGHT; PS_B_KNIGHT ];
    [ PS_W_BISHOP; PS_B_BISHOP ];
    [ PS_W_ROOK;   PS_B_ROOK   ];
    [ PS_W_QUEEN;  PS_B_QUEEN  ];
    [ PS_W_KING;   PS_B_KING   ];
    [ PS_NONE;     PS_NONE     ];
    [ PS_NONE;     PS_NONE     ];
    [ PS_B_PAWN;   PS_W_PAWN   ];
    [ PS_B_KNIGHT; PS_W_KNIGHT ];
    [ PS_B_BISHOP; PS_W_BISHOP ];
    [ PS_B_ROOK;   PS_W_ROOK   ];
    [ PS_B_QUEEN;  PS_W_QUEEN  ];
    [ PS_B_KING;   PS_W_KING   ];
    [ PS_NONE;     PS_NONE     ] ].

(** [kpp_board_index[pc][c]]; nothing outside the bounds of the array. *)
Definition kpp_board_index_at `{PieceSquareBase} (pc c : nat) : option Z :=
  match nth_error kpp_board_index pc with
  | Some row => nth_error row c
  | None => None
  end.

(** Distinct values for the [PS_*] constants, to run the table. *)
Definition sample_piece_square_base : PieceSquareBase := {|
  PS_NONE := 0;
  PS_W_PAWN := 1;     PS_B_PAWN := 65;
  PS_W_KNIGHT := 129; PS_B_KNIGHT := 193;
  PS_W_BISHOP := 257; PS_B_BISHOP := 321;
  PS_W_ROOK := 385;   PS_B_ROOK := 449;
  PS_W_QUEEN := 513;  PS_B_QUEEN := 577;
  PS_W_KING := 641;   PS_B_KING := 705
|}.

(** ** More concrete data *)

(** A stage whose [WriteParameters] fails (a full disk, say): the stream
    comes back with [failbit] set.  Reading is as for a raw stage. *)
Definition unwritable_stage (n : nat) (hash : Z) (name : string) : Stage.t :=
  Stage.mk n hash name
    (Stage.ReadParameters (raw_stage n hash name))
    (fun stream obj => (false, mk_ostream (written stream) true)).

(** [small_architecture] with a feature transformer that cannot be
    written. *)
Definition unwritable_architecture : Architecture := {|
  kVersion := 0x7AF32F16;
  kHashValue := Z.lxor 0x5D69D7B8 0x63337156;
  FV_SCALE := 16;
  host := LittleEndian;
  FeatureTransformer := unwritable_stage 2 0x5D69D7B8 "HalfKP";
  Network := raw_stage 1 0x63337156 "AffineTransform";
  AccData := list byte;
  Board := nat;
  TransformedFeatures := list byte;
  Transform := fun ft pos refresh => (ft, pos);
  Propagate := fun net tf => [sum_bytes net * 100 + sum_bytes tf]
|}.

(** A build with another network stage, hence another container hash. *)
Definition wide_architecture : Architecture := {|
  kVersion := 0x7AF32F16;
  kHashValue := Z.lxor 0x5D69D7B8 0x63337157;
  FV_SCALE := 16;
  host := LittleEndian;
  FeatureTransformer := raw_stage 2 0x5D69D7B8 "HalfKP";
  Network := raw_stage 3 0x63337157 "AffineTransformWide";
  AccData := list byte;
  Board := nat;
  TransformedFeatures := list byte;
  Transform := fun ft pos refresh => (ft, pos);
  Propagate := fun net tf => [sum_bytes net * 100 + sum_bytes tf]
|}.

(** A file system holding [small_file] under one name. *)
Definition small_fs : FileSystem :=
  fun name => if String.eqb name "nn.nnue" then Some small_file else None.

(** The other stage. *)
Definition other_stage (m : StageId) : StageId :=
  match m with
  | FeatureTransformerId => NetworkId
  | NetworkId => FeatureTransformerId
  end.

(** The world in which [load_eval_file] hands the stream of [evalFile] to
    [ReadParameters]: stage objects cleared, [fileName] set, the opening
    of the file recorded. *)
Definition opened `{Architecture} (evalFile : string) (w : World) : World :=
  mk_world (Some (repeat x00 (Stage.sizeof FeatureTransformer)))
           (Some (repeat x00 (Stage.sizeof Network)))
           evalFile (savedfileName w) (log w ++ [EvOpen evalFile]).

(** Where a stage object can come from once [Initialize] has run: it is
    still the zero-filled block, or it is what the stage's
    [ReadParameters] made of the zero-filled block. *)
Definition built_from_cleared `{Architecture} (m : StageId) (p : AlignedPtr)
  : Prop :=
  let zeros := repeat x00 (Stage.sizeof (stage_of m)) in
  p = Some zeros \/
  exists stream ok obj' stream',
    Stage.ReadParameters (stage_of m) stream zeros = (ok, obj', stream') /\
    p = Some obj'.

(** The world after both stages were deserialized into [ft] and [net]. *)
Definition loaded (ft net : storage) (w : World) : World :=
  deserialized NetworkId net (deserialized FeatureTransformerId ft w).

(** * Properties *)

(** ** Arithmetic of the integer codec *)

Lemma byte_to_Z_range (b : byte) : 0 <= byte_to_Z b < 256.
Proof.
  unfold byte_to_Z. pose proof (Byte.to_N_bounded b). lia.
Qed.

Lemma byte_to_Z_of_Z (z : Z) : byte_to_Z (byte_of_Z z) = z mod 256.
Proof.
  unfold byte_to_Z, byte_of_Z.
  assert (Hr : 0 <= z mod 256 < 256) by (apply Z.mod_pos_bound; lia).
  destruct (Byte.of_N (Z.to_N (z mod 256))) as [b|] eqn:E.
  - apply Byte.to_of_N in E. rewrite E. lia.
  - apply Byte.of_N_None_iff in E. lia.
Qed.

Lemma byte_of_Z_to_Z (b : byte) : byte_of_Z (byte_to_Z b) = b.
Proof.
  unfold byte_of_Z, byte_to_Z.
  pose proof (Byte.to_N_bounded b) as Hb.
  rewrite Z.mod_small by lia.
  rewrite N2Z.id, Byte.of_to_N. reflexivity.
Qed.

Lemma length_le_encode (n : nat) (v : Z) : length (le_encode n v) = n.
Proof.
  revert v. induction n as [|n IH]; intros v; simpl; [reflexivity|].
  now rewrite IH.
Qed.

Lemma le_decode_encode (n : nat) (v : Z) :
  0 <= v < 256 ^ Z.of_nat n -> le_decode (le_encode n v) = v.
Proof.
  revert v. induction n as [|n IH]; intros v Hv.
  - simpl in *. lia.
  - cbn [le_encode le_decode]. rewrite byte_to_Z_of_Z.
    rewrite IH.
    + pose proof (Z.div_mod v 256). lia.
    + rewrite Nat2Z.inj_succ, Z.pow_succ_r in Hv by lia.
      split; [apply Z.div_pos; lia|].
      apply Z.div_lt_upper_bound; lia.
Qed.

Lemma le_decode_range (bs : list byte) :
  0 <= le_decode bs < 256 ^ Z.of_nat (length bs).
Proof.
  induction bs as [|b bs IH].
  - simpl. lia.
  - cbn [le_decode length]. rewrite Nat2Z.inj_succ, Z.pow_succ_r by lia.
    pose proof (byte_to_Z_range b). lia.
Qed.

Lemma to_u32_range (z : Z) : 0 <= to_u32 z < u32_max.
Proof. unfold to_u32, u32_max. apply Z.mod_pos_bound. lia. Qed.

(** ** Stream primitives *)

Lemma istream_read_enough (bs r : list byte) (n : nat) :
  length bs = n ->
  istream_read (istream_of (bs ++ r)) n = (bs, istream_of r).
Proof.
  intros <-. unfold istream_read, istream_of. cbn [good rest eofbit failbit negb andb].
  rewrite length_app.
  replace (length bs <=? length bs + length r)%nat with true
    by (symmetry; apply Nat.leb_le; lia).
  rewrite firstn_app, firstn_all, Nat.sub_diag, skipn_app, skipn_all, Nat.sub_diag.
  cbn. now rewrite app_nil_r.
Qed.

Lemma istream_read_split (bs : list byte) (n : nat) :
  (n <= length bs)%nat ->
  istream_read (istream_of bs) n = (firstn n bs, istream_of (skipn n bs)).
Proof.
  intros Hn. unfold istream_read, istream_of. cbn [good rest eofbit failbit negb andb].
  now replace (n <=? length bs)%nat with true by (symmetry; apply Nat.leb_le; lia).
Qed.

Lemma istream_read_short (bs : list byte) (n : nat) :
  (length bs < n)%nat ->
  istream_read (istream_of bs) n = (bs, mk_istream [] true true).
Proof.
  intros Hn. unfold istream_read, istream_of. cbn [good rest eofbit failbit negb andb].
  now replace (n <=? length bs)%nat with false by (symmetry; apply Nat.leb_gt; lia).
Qed.

Lemma istream_read_failed (s : istream) (n : nat) :
  failbit s = true -> istream_read s n = ([], s).
Proof.
  intros Hf. unfold istream_read, good. rewrite Hf, andb_false_r.
  destruct s; cbn in *. now subst.
Qed.

Lemma read_little_endian_failed (s : istream) :
  failbit s = true -> read_little_endian s = (0, s).
Proof.
  intros Hf. unfold read_little_endian. rewrite istream_read_failed by assumption.
  now rewrite Hf.
Qed.

Lemma read_little_endian_split (bs : list byte) :
  (4 <= length bs)%nat ->
  read_little_endian (istream_of bs) =
  (le_decode (firstn 4 bs), istream_of (skipn 4 bs)).
Proof.
  intros H4. unfold read_little_endian. now rewrite istream_read_split.
Qed.

Lemma read_little_endian_short (bs : list byte) :
  (length bs < 4)%nat ->
  read_little_endian (istream_of bs) = (0, mk_istream [] true true).
Proof.
  intros H4. unfold read_little_endian. now rewrite istream_read_short.
Qed.

Lemma read_little_endian_bytes (bs r : list byte) :
  length bs = 4%nat ->
  read_little_endian (istream_of (bs ++ r)) = (le_decode bs, istream_of r).
Proof.
  intros Hbs. unfold read_little_endian.
  now rewrite istream_read_enough by assumption.
Qed.

Lemma read_little_endian_encode (v : Z) (r : list byte) :
  0 <= v < u32_max ->
  read_little_endian (istream_of (le_encode 4 v ++ r)) = (v, istream_of r).
Proof.
  intros Hv. rewrite read_little_endian_bytes by apply length_le_encode.
  rewrite le_decode_encode; [reflexivity|].
  unfold u32_max in Hv. simpl Z.of_nat. lia.
Qed.

(** A read either leaves a usable stream made of a suffix, or a failed one. *)
Lemma read_little_endian_cases (s : istream) :
  failbit (snd (read_little_endian s)) = true \/
  (good s = true /\ (4 <= length (rest s))%nat /\
   read_little_endian s =
   (le_decode (firstn 4 (rest s)), istream_of (skipn 4 (rest s)))).
Proof.
  unfold read_little_endian, istream_read.
  destruct (good s) eqn:G.
  - destruct (4 <=? length (rest s))%nat eqn:L.
    + right. apply Nat.leb_le in L. auto.
    + now left.
  - now left.
Qed.

(** ** The score cache *)

(** C2 (cache hit).  When the accumulator attached to the position is
    marked as holding a computed score, [evaluate] returns the stored
    score; the position, its accumulator included, is returned as it was,
    and the world is unchanged: nothing is added to the log, so neither
    [Transform] nor [Propagate] is called.  This holds in every world,
    even one whose stage pointers are null. *)
Theorem evaluate_cache_hit `{Architecture} (pos : Pos) (w : World) :
  computed_score (accumulator pos) = true ->
  evaluate pos w = Some ((score (accumulator pos), pos), w).
Proof.
  intros Hvalid. unfold evaluate, ComputeScore.
  rewrite Hvalid. reflexivity.
Qed.

Lemma evaluate_cache_hit_witness :
  let pos : @Pos (small_architecture LittleEndian) :=
    mk_position (mk_accumulator [x01] 37 true true) 5%nat in
  computed_score (accumulator pos) = true /\
  evaluate pos initial_world = Some ((37, pos), initial_world).
Proof.
  split; [reflexivity|].
  exact (evaluate_cache_hit (H := small_architecture LittleEndian)
           (mk_position (mk_accumulator [x01] 37 true true) 5%nat)
           initial_world eq_refl).
Defined.

(** C3 (full query).  With both stage objects allocated, [compute_eval]
    calls [Transform] (with [refresh = true]) and then [Propagate] on its
    output, whatever the validity flag of the accumulator says; the score
    [output[0] / FV_SCALE] is stored in the accumulator of the position as
    [Transform] left it, the accumulator is marked valid, and that score is
    returned. *)
Theorem compute_eval_recomputes `{Architecture}
  (pos : Pos) (w : World) (ft net : storage) :
  feature_transformer w = Some ft ->
  network w = Some net ->
  let transformed := fst (Transform ft pos true) in
  let pos1 := snd (Transform ft pos true) in
  let value := Z.quot (nth 0 (Propagate net transformed) 0) FV_SCALE in
  let pos2 :=
    mk_position (mk_accumulator (accumulation (accumulator pos1)) value
                                (computed_accumulation (accumulator pos1)) true)
                (board pos1) in
  compute_eval pos w =
    Some ((value, pos2), record_events w [EvTransform true; EvPropagate]) /\
  score (accumulator pos2) = value /\
  computed_score (accumulator pos2) = true.
Proof.
  intros Hft Hnet. cbv zeta.
  split; [|split; reflexivity].
  unfold compute_eval, ComputeScore, record_events.
  cbn [negb andb]. run_monad. rewrite Hft.
  destruct (Transform ft pos true) as [tf pos1] eqn:ET.
  rewrite Hnet.
  cbn [fst snd network feature_transformer fileName savedfileName log].
  rewrite <- app_assoc, Hft. reflexivity.
Qed.

Lemma compute_eval_recomputes_witness :
  let pos : @Pos (small_architecture LittleEndian) :=
    mk_position (mk_accumulator [] 5 false true) 0%nat in
  feature_transformer small_world = Some [x20; x03] /\
  network small_world = Some [x07] /\
  compute_eval pos small_world =
    Some ((45, mk_position (mk_accumulator [x20; x03] 45 true true) 0%nat),
          record_events small_world [EvTransform true; EvPropagate]).
Proof.
  split; [reflexivity|]. split; [reflexivity|].
  exact (proj1 (compute_eval_recomputes (H := small_architecture LittleEndian)
                  (mk_position (mk_accumulator [] 5 false true) 0%nat)
                  small_world [x20; x03] [x07] eq_refl eq_refl)).
Defined.

(** ** Initialization and loading *)

Lemma Initialize_cleared `{Architecture} (w : World) :
  Initialize w = Some (tt, cleared w).
Proof. reflexivity. Qed.

Lemma zero_filled_repeat (n : nat) : zero_filled (repeat x00 n).
Proof.
  unfold zero_filled. apply Forall_forall. intros b Hb.
  now apply repeat_spec in Hb.
Qed.

(** C8 (zeroed initial state).  [Initialize], run in any world, leaves
    each stage pointer on an object of [sizeof(T)] bytes, all of them
    zero; the rest of the world is untouched.  Computing a score right
    after it is therefore defined (no null pointer is dereferenced) and
    its result does not depend on what the world held before. *)
Theorem Initialize_zero_fills `{Architecture} (w : World) :
  exists w',
    Initialize w = Some (tt, w') /\
    (forall m, exists obj,
        pointer_of m w' = Some obj /\
        length obj = Stage.sizeof (stage_of m) /\
        zero_filled obj) /\
    fileName w' = fileName w /\ log w' = log w /\
    (forall (w2 : World) (pos : Pos) (refresh : bool),
        exists r u u2,
          ComputeScore pos refresh w' = Some (r, u) /\
          ComputeScore pos refresh (cleared w2) = Some (r, u2)).
Proof.
  exists (cleared w). split; [apply Initialize_cleared|].
  split; [|split; [reflexivity|split; [reflexivity|]]].
  - intros [|]; eexists; (split; [reflexivity|]);
      (split; [apply repeat_length|apply zero_filled_repeat]).
  - intros w2 pos refresh. unfold ComputeScore.
    destruct (negb refresh && computed_score (accumulator pos)).
    + do 3 eexists. split; reflexivity.
    + unfold cleared. run_monad.
      destruct (Transform _ pos refresh) as [tf pos1].
      do 3 eexists. split; reflexivity.
Qed.

(** C7 (skip-load option).  With [SkipLoadingEval] set, [load_eval_file]
    returns [true] for every file name and every file system, including
    one in which the name cannot be opened.  The resulting world is the
    cleared one plus one line on the console: no file is opened, the
    outcome mentions neither the file system nor the name, and [fileName]
    keeps its old value, because the switch is tested before the stream is
    constructed. *)
Theorem load_eval_file_skip `{Architecture}
  (fs : FileSystem) (Options : OptionsMap) (evalFile : string) (w : World) :
  Options "SkipLoadingEval"%string = true ->
  load_eval_file fs Options evalFile w =
    Some (true,
          record_events (cleared w)
            [EvCout "info string SkipLoadingEval set to true, Net not loaded!"]).
Proof.
  intros Hskip. unfold load_eval_file.
  unfold bind at 1. rewrite Initialize_cleared, Hskip. reflexivity.
Qed.

Lemma load_eval_file_skip_witness :
  (fun _ : string => true) "SkipLoadingEval"%string = true /\
  load_eval_file (H := small_architecture LittleEndian)
    (fun _ => None) (fun _ => true) "missing.nnue" small_world =
  Some (true,
        mk_world (Some [x00; x00]) (Some [x00]) "" "nn.bin"
          [EvCout "info string SkipLoadingEval set to true, Net not loaded!"]).
Proof.
  split; [reflexivity|].
  exact (load_eval_file_skip (H := small_architecture LittleEndian)
           (fun _ => None) (fun _ => true) "missing.nnue" small_world eq_refl).
Defined.

(** ** Reading the container: the header *)

(** The three fixed-width fields of the header, read in one go. *)
Lemma three_fields_split (bs : list byte) :
  (12 <= length bs)%nat ->
  read_little_endian (istream_of bs) =
    (le_decode (firstn 4 bs), istream_of (skipn 4 bs)) /\
  read_little_endian (istream_of (skipn 4 bs)) =
    (le_decode (firstn 4 (skipn 4 bs)), istream_of (skipn 8 bs)) /\
  read_little_endian (istream_of (skipn 8 bs)) =
    (le_decode (firstn 4 (skipn 8 bs)), istream_of (skipn 12 bs)).
Proof.
  intros H12. repeat split.
  - apply read_little_endian_split. lia.
  - rewrite read_little_endian_split by (rewrite length_skipn; lia).
    now rewrite skipn_skipn.
  - rewrite read_little_endian_split by (rewrite length_skipn; lia).
    now rewrite skipn_skipn.
Qed.

(** A wrong version: the three header fields are read, nothing else. *)
Lemma ReadParameters_wrong_version `{Architecture} (s : istream) (w : World) :
  fst (read_little_endian s) <> kVersion ->
  ReadParameters s w =
    Some ((false,
           snd (read_little_endian
                  (snd (read_little_endian (snd (read_little_endian s)))))), w).
Proof.
  intros Hv. unfold ReadParameters, ReadHeader.
  destruct (read_little_endian s) as [version s1]. cbn [fst snd] in *.
  destruct (read_little_endian s1) as [hash_value s2]. cbn [fst snd].
  destruct (read_little_endian s2) as [size s3]. cbn [fst snd].
  apply Z.eqb_neq in Hv. rewrite Hv. cbn [negb]. rewrite orb_true_r.
  reflexivity.
Qed.

(** C4, as amended (version gate).  When the first field read from the
    stream differs from [kVersion], [ReadParameters] returns [false] after
    the three fixed-width header fields (version, hash, length) have been
    read: on a usable stream of at least twelve bytes, exactly those twelve
    bytes are consumed.  No byte of the architecture string and no stage
    byte is read, and the world is unchanged: neither stage's
    [ReadParameters] is called and no stage object is written. *)
Theorem ReadParameters_version_gate `{Architecture} (s : istream) (w : World) :
  fst (read_little_endian s) <> kVersion ->
  let s1 := snd (read_little_endian s) in
  let s2 := snd (read_little_endian s1) in
  let s3 := snd (read_little_endian s2) in
  ReadParameters s w = Some ((false, s3), w) /\
  (good s = true -> (12 <= length (rest s))%nat ->
   s3 = istream_of (skipn 12 (rest s))).
Proof.
  intros Hv. cbv zeta. split.
  - now apply ReadParameters_wrong_version.
  - intros Hg H12.
    assert (Es : s = istream_of (rest s)).
    { destruct s as [r e f]. unfold good in Hg. cbn in *.
      destruct e, f; try discriminate. reflexivity. }
    destruct (three_fields_split (rest s) H12) as (E1 & E2 & E3).
    rewrite Es at 1. rewrite E1. cbn [snd]. rewrite E2. cbn [snd].
    rewrite E3. reflexivity.
Qed.

Lemma ReadParameters_version_gate_witness :
  let A := small_architecture LittleEndian in
  fst (read_little_endian (istream_of bad_version_file)) <> kVersion /\
  ReadParameters (istream_of bad_version_file) small_world =
    Some ((false, istream_of (skipn 12 bad_version_file)), small_world).
Proof.
  split; [vm_compute; discriminate|].
  exact (proj1 (ReadParameters_version_gate (H := small_architecture LittleEndian)
                  (istream_of bad_version_file) small_world
                  ltac:(vm_compute; discriminate))).
Defined.

(** C4 as stated does not hold: on [bad_version_file] the version field is
    wrong, yet the read does not stop after that field.  When it returns,
    the stream stands after the hash and length fields as well (twelve
    bytes consumed instead of four). *)
Lemma version_gate_reads_hash_and_length :
  let A := small_architecture LittleEndian in
  let s := istream_of bad_version_file in
  fst (read_little_endian s) <> kVersion /\
  ReadParameters s small_world <>
    Some ((false, snd (read_little_endian s)), small_world) /\
  ReadParameters s small_world =
    Some ((false, istream_of (skipn 12 bad_version_file)), small_world).
Proof.
  cbv zeta. split; [vm_compute; discriminate|].
  split; [vm_compute; discriminate|vm_compute; reflexivity].
Qed.

(** [ReadParameters] uses the header only through the success flag, the
    hash and the stream position; the architecture string is dropped. *)
Lemma ReadParameters_header_cong `{Architecture}
  (s s' : istream) (w : World) ok hv arch arch' s1 :
  ReadHeader s [] = (ok, hv, arch, s1) ->
  ReadHeader s' [] = (ok, hv, arch', s1) ->
  ReadParameters s w = ReadParameters s' w.
Proof.
  intros E E'. unfold ReadParameters. now rewrite E, E'.
Qed.

Lemma ReadParameters_header_failed `{Architecture}
  (s : istream) (w : World) hv arch s1 :
  ReadHeader s [] = (false, hv, arch, s1) ->
  ReadParameters s w = Some ((false, s1), w).
Proof.
  intros E. unfold ReadParameters. now rewrite E.
Qed.

Lemma skipn_repeat_x00 (k n : nat) :
  skipn k (repeat x00 n) = repeat x00 (n - k).
Proof.
  revert n. induction k as [|k IH]; intros n.
  - now rewrite Nat.sub_0_r.
  - destruct n as [|n]; [reflexivity|]. cbn [repeat skipn]. apply IH.
Qed.

(** The header of a file whose first twelve bytes are [h], read into the
    caller's string [architecture]. *)
Lemma ReadHeader_fields_caller `{Architecture} (h body architecture : list byte) :
  length h = 12%nat ->
  ReadHeader (istream_of (h ++ body)) architecture =
    let hash_value := le_decode (firstn 4 (skipn 4 h)) in
    let size := Z.to_nat (le_decode (skipn 8 h)) in
    if negb (le_decode (firstn 4 h) =? kVersion)
    then (false, hash_value, architecture, istream_of body)
    else
      let resized :=
        firstn size architecture ++ repeat x00 (size - length architecture) in
      let '(got, stream) := istream_read (istream_of body) size in
      (negb (failbit stream), hash_value,
       got ++ skipn (length got) resized, stream).
Proof.
  intros Hh.
  do 12 (destruct h as [|? h]; [discriminate|]).
  destruct h; [|discriminate]. reflexivity.
Qed.

(** The header of a file whose first twelve bytes are [h]. *)
Lemma ReadHeader_fields `{Architecture} (h body : list byte) :
  length h = 12%nat ->
  ReadHeader (istream_of (h ++ body)) [] =
    let hash_value := le_decode (firstn 4 (skipn 4 h)) in
    let size := Z.to_nat (le_decode (skipn 8 h)) in
    if negb (le_decode (firstn 4 h) =? kVersion)
    then (false, hash_value, [], istream_of body)
    else
      let '(got, stream) := istream_read (istream_of body) size in
      (negb (failbit stream), hash_value,
       got ++ repeat x00 (size - length got), stream).
Proof.
  intros Hh. rewrite ReadHeader_fields_caller by assumption. cbv zeta.
  destruct (negb (le_decode (firstn 4 h) =? kVersion)); [reflexivity|].
  destruct (istream_read (istream_of body) (Z.to_nat (le_decode (skipn 8 h))))
    as [got stream].
  rewrite firstn_nil. cbn [app length].
  now rewrite Nat.sub_0_r, skipn_repeat_x00.
Qed.

(** C9 (architecture string is not interpreted).  Take two files with the
    same twelve header bytes [h] and the same bytes [r] after the
    architecture field, whose bytes inside the field ([a1], [a2], of equal
    length) differ.  [ReadParameters] gives the same result and leaves the
    same world on both: either both are accepted or both are rejected. *)
Theorem ReadParameters_ignores_architecture_bytes `{Architecture}
  (h a1 a2 r : list byte) (w : World) :
  length h = 12%nat ->
  length a1 = length a2 ->
  (length a1 <= Z.to_nat (le_decode (skipn 8 h)))%nat ->
  verdict (ReadParameters (istream_of (h ++ a1 ++ r)) w) =
  verdict (ReadParameters (istream_of (h ++ a2 ++ r)) w).
Proof.
  intros Hh Hlen Hfield.
  pose proof (ReadHeader_fields h (a1 ++ r) Hh) as E1.
  pose proof (ReadHeader_fields h (a2 ++ r) Hh) as E2.
  cbv zeta in E1, E2.
  destruct (negb (le_decode (firstn 4 h) =? kVersion)).
  - rewrite (ReadParameters_header_failed _ w _ _ _ E1).
    rewrite (ReadParameters_header_failed _ w _ _ _ E2).
    reflexivity.
  - set (n := Z.to_nat (le_decode (skipn 8 h))) in *.
    destruct (Nat.le_gt_cases n (length (a1 ++ r))) as [Hn|Hn].
    + rewrite istream_read_split in E1 by assumption.
      rewrite istream_read_split in E2 by (rewrite length_app in *; lia).
      rewrite skipn_app, (skipn_all2 a1) in E1 by lia.
      rewrite skipn_app, (skipn_all2 a2) in E2 by lia.
      rewrite <- Hlen in E2. cbn [app failbit istream_of negb] in E1, E2.
      f_equal. eapply ReadParameters_header_cong; eassumption.
    + rewrite istream_read_short in E1 by assumption.
      rewrite istream_read_short in E2 by (rewrite length_app in *; lia).
      cbn [failbit negb] in E1, E2.
      rewrite (ReadParameters_header_failed _ w _ _ _ E1).
      rewrite (ReadParameters_header_failed _ w _ _ _ E2).
      reflexivity.
Qed.

Lemma ReadParameters_ignores_architecture_bytes_witness :
  let A := small_architecture LittleEndian in
  let h := firstn 12 small_file in
  let r := skipn 14 small_file in
  length h = 12%nat /\ length [x68; x69] = length [x41; x42] /\
  (length [x68; x69] <= Z.to_nat (le_decode (skipn 8 h)))%nat /\
  verdict (ReadParameters (istream_of (h ++ [x68; x69] ++ r)) small_world) =
  verdict (ReadParameters (istream_of (h ++ [x41; x42] ++ r)) small_world).
Proof.
  split; [reflexivity|]. split; [reflexivity|].
  split; [vm_compute; lia|].
  exact (ReadParameters_ignores_architecture_bytes
           (H := small_architecture LittleEndian)
           (firstn 12 small_file) [x68; x69] [x41; x42] (skipn 14 small_file)
           small_world eq_refl eq_refl ltac:(vm_compute; lia)).
Defined.

(** ** Reading the container: the stage blocks *)

(** [Detail::ReadParameters] without the monad. *)
Lemma Detail_ReadParameters_unfold `{Architecture}
  (m : StageId) (s : istream) (w : World) :
  Detail.ReadParameters m s w =
    let '(header, s1) := read_little_endian s in
    if failbit s1 || negb (header =? Stage.GetHashValue (stage_of m))
    then Some ((false, s1), w)
    else
      match pointer_of m w with
      | None => None
      | Some obj =>
          let '(ok, obj', s2) := Stage.ReadParameters (stage_of m) s1 obj in
          Some ((ok, s2), deserialized m obj' w)
      end.
Proof.
  unfold Detail.ReadParameters.
  destruct (read_little_endian s) as [header s1].
  destruct (failbit s1 || negb (header =? Stage.GetHashValue (stage_of m)));
    [reflexivity|].
  unfold bind, deref. destruct (pointer_of m w) as [obj|]; [|reflexivity].
  destruct m; cbn;
    destruct (Stage.ReadParameters _ s1 obj) as [[ok obj'] s2]; reflexivity.
Qed.

(** [ReadParameters] without the monad. *)
Lemma ReadParameters_unfold `{Architecture} (s : istream) (w : World) :
  ReadParameters s w =
    let '(ok, hash_value, _, s1) := ReadHeader s [] in
    if negb ok then Some ((false, s1), w) else
    if negb (hash_value =? kHashValue) then Some ((false, s1), w) else
    match Detail.ReadParameters FeatureTransformerId s1 w with
    | None => None
    | Some ((ok1, s2), w1) =>
        if negb ok1 then Some ((false, s2), w1) else
        match Detail.ReadParameters NetworkId s2 w1 with
        | None => None
        | Some ((ok2, s3), w2) =>
            if negb ok2 then Some ((false, s3), w2) else
            if failbit s3 then Some ((false, s3), w2) else
            Some ((match fst (istream_peek s3) with
                   | None => true
                   | Some _ => false
                   end, snd (istream_peek s3)), w2)
        end
    end.
Proof.
  unfold ReadParameters.
  destruct (ReadHeader s []) as [[[ok hv] arch] s1].
  destruct ok; cbn [negb]; [|reflexivity].
  destruct (negb (hv =? kHashValue)); [reflexivity|].
  unfold bind at 1.
  destruct (Detail.ReadParameters FeatureTransformerId s1 w)
    as [[[ok1 s2] w1]|]; [|reflexivity].
  destruct ok1; cbn [negb]; [|reflexivity].
  unfold bind at 1.
  destruct (Detail.ReadParameters NetworkId s2 w1)
    as [[[ok2 s3] w2]|]; [|reflexivity].
  destruct ok2; cbn [negb]; [|reflexivity].
  destruct (failbit s3); [reflexivity|].
  destruct (istream_peek s3) as [c s4]. reflexivity.
Qed.

(** C5 (hash gates, all or nothing).
    - (container hash) if the hash stored in the header differs from
      [kHashValue], the read fails where [ReadHeader] stopped, with the
      world unchanged: no stage block is parsed;
    - (stage hash) if the hash that opens a stage block differs from that
      stage's [GetHashValue], [Detail::ReadParameters] fails on the spot
      without calling the stage, and that failure is the failure of the
      whole read, whatever the remaining bytes (and so the other block)
      hold;
    - (deserialization) a stage whose own [ReadParameters] returns [false]
      makes the whole read return [false];
    - (no partial acceptance) the read returns [true] only if the header
      was accepted, the container hash matched, and both stage blocks
      passed their hash check and were deserialized successfully. *)
Theorem ReadParameters_hash_gates `{Architecture} :
  (forall s w ok hv arch s1,
      ReadHeader s [] = (ok, hv, arch, s1) ->
      hv <> kHashValue ->
      ReadParameters s w = Some ((false, s1), w)) /\
  (forall m s w,
      fst (read_little_endian s) <> Stage.GetHashValue (stage_of m) ->
      Detail.ReadParameters m s w = Some ((false, snd (read_little_endian s)), w)) /\
  (forall m s w obj obj' s2,
      failbit (snd (read_little_endian s)) = false ->
      fst (read_little_endian s) = Stage.GetHashValue (stage_of m) ->
      pointer_of m w = Some obj ->
      Stage.ReadParameters (stage_of m) (snd (read_little_endian s)) obj =
        (false, obj', s2) ->
      Detail.ReadParameters m s w = Some ((false, s2), deserialized m obj' w)) /\
  (forall s w arch s1 s2 w1,
      ReadHeader s [] = (true, kHashValue, arch, s1) ->
      Detail.ReadParameters FeatureTransformerId s1 w = Some ((false, s2), w1) ->
      ReadParameters s w = Some ((false, s2), w1)) /\
  (forall s w arch s1 s2 w1 s3 w2,
      ReadHeader s [] = (true, kHashValue, arch, s1) ->
      Detail.ReadParameters FeatureTransformerId s1 w = Some ((true, s2), w1) ->
      Detail.ReadParameters NetworkId s2 w1 = Some ((false, s3), w2) ->
      ReadParameters s w = Some ((false, s3), w2)) /\
  (forall s w s' w',
      ReadParameters s w = Some ((true, s'), w') ->
      exists arch s1 s2 w1 s3 ft ft' net net',
        ReadHeader s [] = (true, kHashValue, arch, s1) /\
        fst (read_little_endian s1) = Stage.GetHashValue FeatureTransformer /\
        pointer_of FeatureTransformerId w = Some ft /\
        Stage.ReadParameters FeatureTransformer (snd (read_little_endian s1)) ft =
          (true, ft', s2) /\
        w1 = deserialized FeatureTransformerId ft' w /\
        fst (read_little_endian s2) = Stage.GetHashValue Network /\
        pointer_of NetworkId w1 = Some net /\
        Stage.ReadParameters Network (snd (read_little_endian s2)) net =
          (true, net', s3) /\
        w' = deserialized NetworkId net' w1).
Proof.
  repeat apply conj.
  - intros s w ok hv arch s1 EH Hhv.
    rewrite ReadParameters_unfold, EH.
    destruct ok; cbn [negb]; [|reflexivity].
    apply Z.eqb_neq in Hhv. now rewrite Hhv.
  - intros m s w Hne.
    rewrite Detail_ReadParameters_unfold.
    destruct (read_little_endian s) as [header s1]. cbn [fst snd] in *.
    apply Z.eqb_neq in Hne. rewrite Hne. cbn [negb]. now rewrite orb_true_r.
  - intros m s w obj obj' s2 Hok Hhash Hptr Hread.
    rewrite Detail_ReadParameters_unfold.
    destruct (read_little_endian s) as [header s1]. cbn [fst snd] in *.
    rewrite Hok, Hhash, Z.eqb_refl. cbn [negb orb].
    now rewrite Hptr, Hread.
  - intros s w arch s1 s2 w1 EH E1.
    rewrite ReadParameters_unfold, EH, Z.eqb_refl. cbn [negb].
    now rewrite E1.
  - intros s w arch s1 s2 w1 s3 w2 EH E1 E2.
    rewrite ReadParameters_unfold, EH, Z.eqb_refl. cbn [negb].
    rewrite E1. cbn [negb]. now rewrite E2.
  - intros s w s' w' Hacc.
    rewrite ReadParameters_unfold in Hacc.
    destruct (ReadHeader s []) as [[[ok hv] arch] s1].
    destruct ok; cbn [negb] in Hacc; [|discriminate].
    destruct (hv =? kHashValue) eqn:Ehv; cbn [negb] in Hacc; [|discriminate].
    apply Z.eqb_eq in Ehv. subst hv.
    rewrite Detail_ReadParameters_unfold in Hacc.
    destruct (read_little_endian s1) as [h1 t1] eqn:L1.
    destruct (failbit t1 || negb (h1 =? _)) eqn:G1; [discriminate|].
    apply orb_false_elim in G1. destruct G1 as [_ G1].
    apply negb_false_iff, Z.eqb_eq in G1.
    destruct (pointer_of FeatureTransformerId w) as [ft|] eqn:Pft; [|discriminate].
    destruct (Stage.ReadParameters _ t1 ft) as [[ok1 ft'] s2] eqn:R1.
    destruct ok1; cbn [negb] in Hacc; [|discriminate].
    rewrite Detail_ReadParameters_unfold in Hacc.
    destruct (read_little_endian s2) as [h2 t2] eqn:L2.
    destruct (failbit t2 || negb (h2 =? _)) eqn:G2; [discriminate|].
    apply orb_false_elim in G2. destruct G2 as [_ G2].
    apply negb_false_iff, Z.eqb_eq in G2.
    destruct (pointer_of NetworkId _) as [net|] eqn:Pnet; [|discriminate].
    destruct (Stage.ReadParameters _ t2 net) as [[ok2 net'] s3] eqn:R2.
    destruct ok2; cbn [negb] in Hacc; [|discriminate].
    destruct (failbit s3); [discriminate|].
    injection Hacc as _ _ Hw.
    exists arch, s1, s2, (deserialized FeatureTransformerId ft' w), s3,
           ft, ft', net, net'.
    rewrite L1, L2. cbn [fst snd stage_of] in *. repeat split; auto.
Qed.

Lemma ReadParameters_hash_gates_witness :
  let A := small_architecture LittleEndian in
  (* container hash flipped: rejected after the 14 header bytes *)
  ReadParameters (istream_of bad_hash_file) small_world =
    Some ((false, istream_of (skipn 14 bad_hash_file)), small_world) /\
  (* first stage hash flipped: rejected at that block, stage not called *)
  Detail.ReadParameters FeatureTransformerId
      (istream_of (skipn 14 bad_stage1_file)) small_world =
    Some ((false, istream_of (skipn 18 bad_stage1_file)), small_world) /\
  ReadParameters (istream_of bad_stage1_file) small_world =
    Some ((false, istream_of (skipn 18 bad_stage1_file)), small_world) /\
  (* second stage hash flipped: rejected after the first stage was loaded *)
  ReadParameters (istream_of bad_stage2_file) small_world =
    Some ((false, istream_of (skipn 24 bad_stage2_file)),
          deserialized FeatureTransformerId [x11; x22] small_world) /\
  (* first stage cut short: its failure is the result *)
  Detail.ReadParameters FeatureTransformerId
      (istream_of (skipn 14 (firstn 19 small_file))) small_world =
    Some ((false, mk_istream [] true true),
          deserialized FeatureTransformerId [x11; x03] small_world) /\
  (* the well-formed file passes every gate *)
  fst (read_little_endian (istream_of (skipn 14 small_file))) =
    Stage.GetHashValue FeatureTransformer.
Proof.
  cbv zeta.
  destruct (ReadParameters_hash_gates (H := small_architecture LittleEndian))
    as (Gcontainer & Gstage & Gdeser & Gfirst & Gsecond & Gaccept).
  split.
  { eapply Gcontainer; [vm_compute; reflexivity | vm_compute; discriminate]. }
  split.
  { apply (Gstage FeatureTransformerId). vm_compute; discriminate. }
  split.
  { eapply Gfirst; [vm_compute; reflexivity|].
    apply (Gstage FeatureTransformerId). vm_compute; discriminate. }
  split.
  { eapply Gsecond; [vm_compute; reflexivity | vm_compute; reflexivity |].
    apply (Gstage NetworkId). vm_compute; discriminate. }
  split.
  { eapply (Gdeser FeatureTransformerId); vm_compute; reflexivity. }
  destruct (Gaccept (istream_of small_file) small_world
              (mk_istream [] true false)
              (deserialized NetworkId [x33]
                 (deserialized FeatureTransformerId [x11; x22] small_world)))
    as (arch & s1 & s2 & w1 & s3 & ft & ft' & net & net' & EH & E1 & _).
  { vm_compute; reflexivity. }
  assert (Es1 : s1 = istream_of (skipn 14 small_file)).
  { vm_compute in EH. now injection EH as _ <-. }
  now rewrite <- Es1.
Defined.

(** ** Loading never keeps the previous parameters *)

Lemma Detail_ReadParameters_defined `{Architecture}
  (m : StageId) (s : istream) (w : World) :
  allocated w ->
  exists r s' w',
    Detail.ReadParameters m s w = Some ((r, s'), w') /\ allocated w'.
Proof.
  intros [Aft Anet]. rewrite Detail_ReadParameters_unfold.
  destruct (read_little_endian s) as [header s1].
  destruct (failbit s1 || negb (header =? _)).
  - do 3 eexists. split; [reflexivity|]. now split.
  - destruct m; cbn [pointer_of].
    + destruct (feature_transformer w) as [obj|]; [|contradiction].
      destruct (Stage.ReadParameters _ s1 obj) as [[ok obj'] s2].
      do 3 eexists. split; [reflexivity|]. split; [discriminate|exact Anet].
    + destruct (network w) as [obj|]; [|contradiction].
      destruct (Stage.ReadParameters _ s1 obj) as [[ok obj'] s2].
      do 3 eexists. split; [reflexivity|]. split; [exact Aft|discriminate].
Qed.

Lemma ReadParameters_defined `{Architecture} (s : istream) (w : World) :
  allocated w ->
  exists r s' w', ReadParameters s w = Some ((r, s'), w') /\ allocated w'.
Proof.
  intros Aw. rewrite ReadParameters_unfold.
  destruct (ReadHeader s []) as [[[ok hv] arch] s1].
  destruct (negb ok); [eauto 6|].
  destruct (negb (hv =? kHashValue)); [eauto 6|].
  destruct (Detail_ReadParameters_defined FeatureTransformerId s1 w Aw)
    as (ok1 & s2 & w1 & -> & Aw1).
  destruct (negb ok1); [eauto 6|].
  destruct (Detail_ReadParameters_defined NetworkId s2 w1 Aw1)
    as (ok2 & s3 & w2 & -> & Aw2).
  destruct (negb ok2); [eauto 6|].
  destruct (failbit s3); eauto 6.
Qed.

(** ** Byte ranges *)

Lemma firstn_plus (A : Type) (a c : nat) (l : list A) :
  firstn (a + c) l = firstn a l ++ firstn c (skipn a l).
Proof.
  revert l. induction a as [|a IH]; intros l; [reflexivity|].
  destruct l as [|x l]; cbn [Nat.add firstn skipn app].
  - now rewrite firstn_nil.
  - now rewrite IH.
Qed.

Lemma firstn_split_at (A : Type) (k j : nat) (l : list A) :
  (k <= j)%nat ->
  firstn j l = firstn k l ++ firstn (j - k) (skipn k l).
Proof.
  intros Hkj. replace j with (k + (j - k))%nat at 1 by lia.
  apply firstn_plus.
Qed.

Lemma exact_and_then {A B : Type}
  (run1 : reader A) (run2 : A -> reader B) (on_fail : A -> B) :
  exact_range run1 ->
  (forall a, exact_range (run2 a)) ->
  exact_range (and_then run1 run2 on_fail).
Proof.
  intros X1 X2 b c s' Hrun. unfold and_then in Hrun.
  destruct (run1 (istream_of b)) as [[[ok a] s1]|] eqn:R1; [|discriminate].
  destruct ok; [|discriminate].
  destruct (X1 b a s1 R1) as (k1 & Hk1 & -> & Hext1 & Hcut1).
  destruct (X2 a (skipn k1 b) c s' Hrun) as (k2 & Hk2 & -> & Hext2 & Hcut2).
  rewrite length_skipn in Hk2.
  exists (k1 + k2)%nat. split; [lia|]. split; [|split].
  - now rewrite skipn_skipn, Nat.add_comm.
  - intros r. unfold and_then.
    rewrite firstn_plus, <- app_assoc, Hext1. apply Hext2.
  - intros j Hj. unfold and_then.
    destruct (Nat.lt_ge_cases j k1) as [Hlt|Hge].
    + destruct (Hcut1 j Hlt) as (a' & t & ->). eauto.
    + rewrite (firstn_split_at _ k1 j b Hge), Hext1.
      apply Hcut2. lia.
Qed.

Lemma exact_expect_u32 (c : Z) : exact_range (expect_u32 c).
Proof.
  intros b [] s' Hrun. unfold expect_u32 in Hrun.
  destruct (read_little_endian_cases (istream_of b)) as [Hf|(_ & H4 & E)].
  - destruct (read_little_endian (istream_of b)) as [v s1]. cbn [snd] in Hf.
    rewrite Hf in Hrun. discriminate.
  - cbn [rest istream_of] in H4, E. rewrite E in Hrun.
    cbn [failbit istream_of orb] in Hrun.
    injection Hrun as Hv <-.
    exists 4%nat. split; [assumption|]. split; [reflexivity|]. split.
    + intros r. unfold expect_u32.
      rewrite read_little_endian_split
        by (rewrite length_app, length_firstn; lia).
      rewrite firstn_app, length_firstn, firstn_firstn.
      replace (4 - Nat.min 4 (length b))%nat with 0%nat by lia.
      rewrite skipn_app, length_firstn, skipn_firstn_comm.
      replace (4 - Nat.min 4 (length b))%nat with 0%nat by lia.
      rewrite Nat.min_id. cbn [firstn skipn app failbit istream_of orb].
      rewrite Nat.sub_diag. cbn [firstn app]. rewrite app_nil_r.
      now rewrite Hv.
    + intros j Hj. unfold expect_u32.
      rewrite read_little_endian_short by (rewrite length_firstn; lia).
      cbn [failbit orb negb]. eauto.
Qed.

Lemma block_reader_steps `{Architecture} (m : StageId) (w : World) (s : istream) :
  block_reader m w s =
  and_then (expect_u32 (Stage.GetHashValue (stage_of m)))
           (fun _ => stage_step m w) (fun _ => w) s.
Proof.
  unfold block_reader, and_then, expect_u32, stage_step.
  rewrite Detail_ReadParameters_unfold.
  destruct (read_little_endian s) as [header s1].
  destruct (failbit s1 || negb (header =? _)); cbn [negb]; [reflexivity|].
  destruct (pointer_of m w) as [obj|]; [|reflexivity].
  destruct (Stage.ReadParameters _ s1 obj) as [[ok obj'] s2]. reflexivity.
Qed.

Lemma exact_stage_step `{Architecture} (m : StageId) (w : World) :
  ExactRange (stage_of m) -> exact_range (stage_step m w).
Proof.
  intros [X] b a s' Hrun. unfold stage_step in *.
  destruct (pointer_of m w) as [obj|]; [|discriminate].
  destruct (Stage.ReadParameters (stage_of m) (istream_of b) obj)
    as [[ok obj'] s2] eqn:R.
  injection Hrun as -> <- ->.
  destruct (X obj b obj' s') as (k & Hk & Hs & Hext & Hcut).
  { unfold stage_reader. now rewrite R. }
  exists k. split; [assumption|]. split; [assumption|]. split.
  - intros r. specialize (Hext r). unfold stage_reader in Hext.
    injection Hext as ->. reflexivity.
  - intros j Hj. destruct (Hcut j Hj) as (a' & t & E).
    unfold stage_reader in E. injection E as ->. eauto.
Qed.

Lemma exact_block_reader `{Architecture} (m : StageId) (w : World) :
  ExactRange (stage_of m) -> exact_range (block_reader m w).
Proof.
  intros X b a s' Hrun. rewrite block_reader_steps in Hrun.
  destruct (exact_and_then _ _ _ (exact_expect_u32 _)
              (fun _ => exact_stage_step m w X) b a s' Hrun)
    as (k & Hk & Hs & Hext & Hcut).
  exists k. split; [assumption|]. split; [assumption|]. split.
  - intros r. rewrite block_reader_steps. apply Hext.
  - intros j Hj. rewrite block_reader_steps. now apply Hcut.
Qed.

Lemma ReadHeader_short `{Architecture} (b : list byte) :
  (length b < 12)%nat ->
  exists hv arch t, ReadHeader (istream_of b) [] = (false, hv, arch, t).
Proof.
  intros Hb. unfold ReadHeader.
  destruct (Nat.lt_ge_cases (length b) 4) as [H4|H4].
  { rewrite read_little_endian_short by assumption. cbv beta iota.
    rewrite read_little_endian_failed by reflexivity. cbv beta iota.
    rewrite read_little_endian_failed by reflexivity. cbv beta iota.
    cbn [failbit orb]. eauto. }
  rewrite read_little_endian_split by assumption. cbv beta iota.
  destruct (Nat.lt_ge_cases (length b) 8) as [H8|H8].
  { rewrite read_little_endian_short by (rewrite length_skipn; lia).
    cbv beta iota.
    rewrite read_little_endian_failed by reflexivity. cbv beta iota.
    cbn [failbit orb]. eauto. }
  rewrite read_little_endian_split by (rewrite length_skipn; lia).
  cbv beta iota.
  rewrite read_little_endian_short by (rewrite !length_skipn; lia).
  cbv beta iota. cbn [failbit orb]. eauto.
Qed.

Lemma exact_header_reader `{Architecture} : exact_range header_reader.
Proof.
  intros b [] s' Hrun. unfold header_reader in Hrun.
  destruct (Nat.lt_ge_cases (length b) 12) as [Hshort|H12].
  { destruct (ReadHeader_short b Hshort) as (hv & arch & t & E).
    rewrite E in Hrun. discriminate. }
  assert (Hh : length (firstn 12 b) = 12%nat) by (rewrite length_firstn; lia).
  pose proof (fun body => ReadHeader_fields (firstn 12 b) body Hh) as Hfields.
  cbv zeta in Hfields.
  set (n := Z.to_nat (le_decode (skipn 8 (firstn 12 b)))) in *.
  set (hv := le_decode (firstn 4 (skipn 4 (firstn 12 b)))) in *.
  rewrite <- (firstn_skipn 12 b) in Hrun at 1. rewrite Hfields in Hrun.
  destruct (negb (le_decode (firstn 4 (firstn 12 b)) =? kVersion)) eqn:Ever;
    [discriminate|].
  destruct (Nat.le_gt_cases n (length (skipn 12 b))) as [Hn|Hn].
  2:{ rewrite istream_read_short in Hrun by assumption. discriminate. }
  rewrite istream_read_split in Hrun by assumption.
  cbn [failbit istream_of negb andb] in Hrun.
  injection Hrun as Ehash <-.
  rewrite length_skipn in Hn.
  exists (12 + n)%nat. split; [lia|]. split; [|split].
  - change (istream_of (skipn n (skipn 12 b)) = istream_of (skipn (12 + n) b)).
    now rewrite skipn_skipn, Nat.add_comm.
  - intros r. unfold header_reader.
    rewrite firstn_plus, <- app_assoc, Hfields.
    rewrite istream_read_enough
      by (rewrite length_firstn, length_skipn; lia).
    cbn [failbit istream_of negb andb]. now rewrite Ehash.
  - intros j Hj. unfold header_reader.
    destruct (Nat.lt_ge_cases j 12) as [Hlt|Hge].
    + destruct (ReadHeader_short (firstn j b)) as (hv' & arch & t & E).
      { rewrite length_firstn. lia. }
      rewrite E. cbn [andb]. eauto.
    + rewrite (firstn_split_at _ 12 j b Hge), Hfields.
      rewrite istream_read_short by (rewrite length_firstn; lia).
      cbn [failbit negb andb]. eauto.
Qed.

Lemma exact_container_reader `{Architecture} (w : World) :
  ExactRange FeatureTransformer -> ExactRange Network ->
  exact_range (container_reader w).
Proof.
  intros Xft Xnet. unfold container_reader.
  apply exact_and_then; [apply exact_header_reader|]. intros _.
  apply exact_and_then.
  - now apply (exact_block_reader FeatureTransformerId).
  - intros w1. now apply (exact_block_reader NetworkId).
Qed.

(** [ReadParameters] is the container reader followed by the test that
    nothing is left in the stream. *)
Lemma ReadParameters_container `{Architecture} (s : istream) (w : World) :
  ReadParameters s w =
    match container_reader w s with
    | None => None
    | Some (ok, w2, s3) =>
        if negb ok then Some ((false, s3), w2) else
        if failbit s3 then Some ((false, s3), w2) else
        Some ((match fst (istream_peek s3) with
               | None => true
               | Some _ => false
               end, snd (istream_peek s3)), w2)
    end.
Proof.
  rewrite ReadParameters_unfold.
  unfold container_reader, and_then, header_reader, block_reader.
  destruct (ReadHeader s []) as [[[ok hv] arch] s1].
  destruct ok; cbn [negb andb]; [|reflexivity].
  destruct (hv =? kHashValue); cbn [negb]; [|reflexivity].
  destruct (Detail.ReadParameters FeatureTransformerId s1 w)
    as [[[ok1 s2] w1]|]; [|reflexivity].
  destruct ok1; cbn [negb]; [|reflexivity].
  destruct (Detail.ReadParameters NetworkId s2 w1)
    as [[[ok2 s3] w2]|]; reflexivity.
Qed.

(** C6 (exact exhaustion).  For stage classes that read exactly their
    byte range: if [ReadParameters] accepts the bytes [bs], then the two
    stage blocks end exactly where [bs] ends (the stream is exhausted,
    nothing is left unread); every file obtained by cutting [bs] before
    its last byte is rejected; and [bs] followed by one more byte, or by
    any non-empty data, is rejected. *)
Theorem ReadParameters_exact_exhaustion `{Architecture}
  (bs : list byte) (w : World) (s' : istream) (w' : World) :
  ExactRange FeatureTransformer ->
  ExactRange Network ->
  ReadParameters (istream_of bs) w = Some ((true, s'), w') ->
  (rest s' = [] /\
   container_reader w (istream_of bs) = Some (true, w', istream_of [])) /\
  (forall n, (n < length bs)%nat ->
     exists t u,
       ReadParameters (istream_of (firstn n bs)) w = Some ((false, t), u)) /\
  (forall x extra,
     exists t u,
       ReadParameters (istream_of (bs ++ x :: extra)) w = Some ((false, t), u)).
Proof.
  intros Xft Xnet Hacc.
  rewrite ReadParameters_container in Hacc.
  destruct (container_reader w (istream_of bs)) as [[[ok w2] s3]|] eqn:C;
    [|discriminate].
  destruct ok; cbn [negb] in Hacc; [|discriminate].
  destruct (exact_container_reader w Xft Xnet bs w2 s3 C)
    as (k & Hk & -> & Hext & Hcut).
  cbn [failbit istream_of] in Hacc.
  unfold istream_peek in Hacc. cbn [good istream_of eofbit failbit negb andb rest] in Hacc.
  destruct (skipn k bs) as [|c tl] eqn:Sk; cbn [fst snd] in Hacc; [|discriminate].
  injection Hacc as <- <-.
  assert (Ek : k = length bs).
  { apply (f_equal (@length byte)) in Sk. rewrite length_skipn in Sk.
    cbn [length] in Sk. lia. }
  subst k. split; [|split].
  - split; reflexivity.
  - intros n Hn. rewrite ReadParameters_container.
    destruct (Hcut n Hn) as (a' & t & ->). cbn [negb]. eauto.
  - intros x extra. rewrite ReadParameters_container.
    specialize (Hext (x :: extra)). rewrite firstn_all in Hext.
    rewrite Hext. cbn. eauto.
Qed.

(** The raw stages honour both parts of the contract. *)
Lemma raw_stage_exact (n : nat) (hash : Z) (name : string) :
  ExactRange (raw_stage n hash name).
Proof.
  constructor. intros obj b a s' Hrun.
  unfold stage_reader, raw_stage in *. cbn [Stage.ReadParameters] in *.
  destruct (Nat.le_gt_cases n (length b)) as [Hn|Hn].
  2:{ rewrite istream_read_short in Hrun by assumption. discriminate. }
  rewrite istream_read_split in Hrun by assumption.
  cbn [failbit istream_of negb] in Hrun. injection Hrun as <- <-.
  exists n. split; [assumption|]. split; [reflexivity|]. split.
  - intros r. cbn [Stage.ReadParameters].
    now rewrite istream_read_enough by (rewrite length_firstn; lia).
  - intros j Hj. cbn [Stage.ReadParameters].
    rewrite istream_read_short by (rewrite length_firstn; lia).
    cbn [failbit negb]. eauto.
Qed.

Lemma raw_stage_symmetric (n : nat) (hash : Z) (name : string) :
  Symmetric (raw_stage n hash name).
Proof.
  constructor. cbn [Stage.sizeof raw_stage]. intros o obj Hobj Ho.
  exists obj. split.
  - cbn [Stage.WriteParameters raw_stage]. unfold ostream_write.
    rewrite Ho. reflexivity.
  - intros obj0 r Hobj0. cbn [Stage.ReadParameters raw_stage].
    rewrite istream_read_enough by assumption.
    cbn [failbit istream_of negb].
    rewrite skipn_all2 by lia. now rewrite app_nil_r.
Qed.

Lemma ReadParameters_exact_exhaustion_witness :
  let A := small_architecture LittleEndian in
  ReadParameters (istream_of small_file) small_world =
    Some ((true, mk_istream [] true false),
          deserialized NetworkId [x33]
            (deserialized FeatureTransformerId [x11; x22] small_world)) /\
  (forall n, (n < length small_file)%nat ->
     exists t u,
       ReadParameters (istream_of (firstn n small_file)) small_world =
         Some ((false, t), u)) /\
  (exists t u,
     ReadParameters (istream_of (small_file ++ [x00])) small_world =
       Some ((false, t), u)).
Proof.
  cbv zeta.
  assert (Hacc : ReadParameters (H := small_architecture LittleEndian)
                   (istream_of small_file) small_world =
                 Some ((true, mk_istream [] true false),
                       deserialized NetworkId [x33]
                         (deserialized FeatureTransformerId [x11; x22] small_world)))
    by (vm_compute; reflexivity).
  destruct (ReadParameters_exact_exhaustion
              (H := small_architecture LittleEndian)
              small_file small_world _ _
              (raw_stage_exact _ _ _) (raw_stage_exact _ _ _) Hacc)
    as (_ & Hcut & Hextra).
  split; [exact Hacc|]. split; [exact Hcut|]. exact (Hextra x00 []).
Defined.

(** ** Writing and reading back *)

Lemma length_list_byte_of_string (s : string) :
  length (list_byte_of_string s) = String.length s.
Proof.
  unfold list_byte_of_string. rewrite length_map.
  induction s as [|c s IH]; [reflexivity|].
  cbn [list_ascii_of_string String.length length]. now rewrite IH.
Qed.

Lemma length_object_representation (h : ByteOrder) (v : Z) :
  length (object_representation h v) = 4%nat.
Proof. destruct h; reflexivity. Qed.

Lemma WriteHeader_bytes `{Architecture}
  (o : ostream) (hash_value : Z) (architecture : string) :
  ofailbit o = false ->
  WriteHeader o hash_value architecture =
    (true, mk_ostream (written o ++ header_bytes hash_value architecture) false).
Proof.
  intros Ho. unfold WriteHeader, header_bytes, ostream_write.
  rewrite Ho. cbn [ofailbit written negb].
  now rewrite <- !app_assoc.
Qed.

Lemma Detail_WriteParameters_bytes `{Architecture}
  (m : StageId) (o : ostream) (w : World) (obj : storage) :
  ofailbit o = false ->
  pointer_of m w = Some obj ->
  Detail.WriteParameters m o w =
    Some (Stage.WriteParameters (stage_of m)
            (mk_ostream
               (written o ++
                object_representation host (Stage.GetHashValue (stage_of m)))
               false) obj,
          record_events w [EvSerialize m]).
Proof.
  intros Ho Hp. unfold Detail.WriteParameters, ostream_write.
  rewrite Ho. unfold bind, deref. rewrite Hp. reflexivity.
Qed.

(** What [WriteParameters] produces, on any host, when the stage classes
    are symmetric: a file laid out as [container_bytes], whose stage
    parts decode back to the objects written. *)
Lemma WriteParameters_bytes `{Architecture} (w : World) (ft net : storage) :
  Symmetric FeatureTransformer ->
  Symmetric Network ->
  feature_transformer w = Some ft ->
  network w = Some net ->
  length ft = Stage.sizeof FeatureTransformer ->
  length net = Stage.sizeof Network ->
  exists bft bnet,
    WriteParameters ostream_empty w =
      Some ((true, mk_ostream (container_bytes bft bnet) false), serialized w) /\
    (forall obj0 r,
        length obj0 = Stage.sizeof FeatureTransformer ->
        Stage.ReadParameters FeatureTransformer (istream_of (bft ++ r)) obj0 =
          (true, ft, istream_of r)) /\
    (forall obj0 r,
        length obj0 = Stage.sizeof Network ->
        Stage.ReadParameters Network (istream_of (bnet ++ r)) obj0 =
          (true, net, istream_of r)).
Proof.
  intros [Sft] [Snet] Hft Hnet Lft Lnet.
  set (hdr := header_bytes kHashValue GetArchitectureString).
  set (hft := object_representation host (Stage.GetHashValue FeatureTransformer)).
  set (hnet := object_representation host (Stage.GetHashValue Network)).
  destruct (Sft (mk_ostream (hdr ++ hft) false) ft Lft eq_refl)
    as (bft & Wft & Rft).
  cbn [written] in Wft.
  destruct (Snet (mk_ostream (((hdr ++ hft) ++ bft) ++ hnet) false)
              net Lnet eq_refl) as (bnet & Wnet & Rnet).
  cbn [written] in Wnet.
  exists bft, bnet. split; [|split; assumption].
  unfold WriteParameters.
  rewrite (WriteHeader_bytes ostream_empty _ _ eq_refl).
  cbn [negb written ostream_empty app]. fold hdr.
  unfold bind at 1.
  rewrite (Detail_WriteParameters_bytes FeatureTransformerId
             (mk_ostream hdr false) w ft eq_refl Hft).
  cbn [written stage_of]. fold hft. rewrite Wft. cbn [negb].
  unfold bind at 1.
  rewrite (Detail_WriteParameters_bytes NetworkId
             (mk_ostream ((hdr ++ hft) ++ bft) false)
             (record_events w [EvSerialize FeatureTransformerId]) net
             eq_refl Hnet).
  cbn [written stage_of]. fold hnet. rewrite Wnet.
  unfold container_bytes, ret, serialized. fold hdr hft hnet. cbn [negb ofailbit].
  now rewrite <- !app_assoc.
Qed.

Lemma ReadHeader_header_bytes `{A : Architecture} `{!WellTyped A}
  (hash_value : Z) (architecture : string) (r : list byte) :
  host = LittleEndian ->
  0 <= hash_value < u32_max ->
  exists arch,
    ReadHeader (istream_of (header_bytes hash_value architecture ++ r)) [] =
      (true, hash_value, arch, istream_of r).
Proof.
  intros Hhost Hhv. unfold ReadHeader, header_bytes. cbv zeta.
  rewrite Hhost. cbn [object_representation].
  set (size := to_u32 (Z.of_nat (String.length architecture))).
  assert (Hsize : 0 <= size < u32_max) by apply to_u32_range.
  rewrite <- !app_assoc.
  rewrite read_little_endian_encode by apply kVersion_u32. cbv beta iota.
  rewrite read_little_endian_encode by assumption. cbv beta iota.
  rewrite read_little_endian_encode by assumption. cbv beta iota.
  rewrite Z.eqb_refl. cbn [failbit istream_of negb orb].
  rewrite istream_read_enough.
  - cbn [failbit istream_of negb]. eauto.
  - rewrite length_firstn, length_list_byte_of_string.
    assert (size <= Z.of_nat (String.length architecture)).
    { unfold size, to_u32. apply Z.mod_le; [lia|unfold u32_max; lia]. }
    lia.
Qed.

Lemma Detail_ReadParameters_block `{A : Architecture} `{!WellTyped A}
  (m : StageId) (w : World) (obj0 obj : storage) (bs r : list byte) :
  pointer_of m w = Some obj0 ->
  Stage.ReadParameters (stage_of m) (istream_of (bs ++ r)) obj0 =
    (true, obj, istream_of r) ->
  Detail.ReadParameters m
    (istream_of (le_encode 4 (Stage.GetHashValue (stage_of m)) ++ bs ++ r)) w =
  Some ((true, istream_of r), deserialized m obj w).
Proof.
  intros Hp Hread. rewrite Detail_ReadParameters_unfold.
  rewrite read_little_endian_encode by apply stage_hash_u32.
  rewrite Z.eqb_refl. cbn [failbit istream_of negb orb].
  now rewrite Hp, Hread.
Qed.

(** X19 (round trip on a little-endian host).  With both stage objects
    allocated at their size and stage classes whose serialization is
    symmetric, [WriteParameters] to an empty stream succeeds and leaves the
    stage objects alone; [ReadParameters] on the bytes it wrote, run after
    [Initialize], succeeds and rebuilds both objects byte for byte. *)
Theorem round_trip_little_endian `{A : Architecture} `{!WellTyped A}
  (w : World) (ft net : storage) :
  host = LittleEndian ->
  Symmetric FeatureTransformer ->
  Symmetric Network ->
  feature_transformer w = Some ft ->
  network w = Some net ->
  length ft = Stage.sizeof FeatureTransformer ->
  length net = Stage.sizeof Network ->
  exists bs w1 s' w2,
    WriteParameters ostream_empty w = Some ((true, mk_ostream bs false), w1) /\
    feature_transformer w1 = Some ft /\
    network w1 = Some net /\
    Initialize w1 = Some (tt, cleared w1) /\
    ReadParameters (istream_of bs) (cleared w1) = Some ((true, s'), w2) /\
    feature_transformer w2 = Some ft /\
    network w2 = Some net.
Proof.
  intros Hhost Sft Snet Hft Hnet Lft Lnet.
  destruct (WriteParameters_bytes w ft net Sft Snet Hft Hnet Lft Lnet)
    as (bft & bnet & Hwrite & Rft & Rnet).
  destruct (ReadHeader_header_bytes kHashValue GetArchitectureString
              (object_representation host (Stage.GetHashValue FeatureTransformer)
               ++ bft ++
               object_representation host (Stage.GetHashValue Network) ++ bnet)
              Hhost kHashValue_u32) as (arch & EH).
  exists (container_bytes bft bnet), (serialized w).
  eexists _, _. split; [exact Hwrite|].
  split; [exact Hft|]. split; [exact Hnet|]. split; [reflexivity|].
  split.
  - unfold container_bytes.
    rewrite ReadParameters_unfold, EH, Z.eqb_refl. cbn [negb].
    rewrite Hhost. cbn [object_representation].
    pose proof (Detail_ReadParameters_block FeatureTransformerId
                  (cleared (serialized w))
                  (repeat x00 (Stage.sizeof FeatureTransformer)) ft bft
                  (le_encode 4 (Stage.GetHashValue Network) ++ bnet) eq_refl
                  (Rft _ _ (repeat_length _ _))) as E1.
    cbn [stage_of] in E1. rewrite E1. cbn [negb].
    pose proof (Detail_ReadParameters_block NetworkId
                  (deserialized FeatureTransformerId ft (cleared (serialized w)))
                  (repeat x00 (Stage.sizeof Network)) net bnet [] eq_refl
                  (Rnet _ _ (repeat_length _ _))) as E2.
    cbn [stage_of] in E2. rewrite app_nil_r in E2.
    rewrite E2. cbn [negb failbit istream_of]. reflexivity.
  - split; reflexivity.
Qed.

Lemma small_architecture_well_typed (h : ByteOrder) :
  WellTyped (small_architecture h).
Proof.
  constructor; [| |intros [|]]; cbn; unfold u32_max; lia.
Qed.

Lemma round_trip_little_endian_witness :
  let A := small_architecture LittleEndian in
  host = LittleEndian /\
  exists bs w1 s' w2,
    WriteParameters ostream_empty small_world =
      Some ((true, mk_ostream bs false), w1) /\
    feature_transformer w1 = Some [x20; x03] /\
    network w1 = Some [x07] /\
    Initialize w1 = Some (tt, cleared w1) /\
    ReadParameters (istream_of bs) (cleared w1) = Some ((true, s'), w2) /\
    feature_transformer w2 = Some [x20; x03] /\
    network w2 = Some [x07].
Proof.
  split; [reflexivity|].
  exact (round_trip_little_endian
           (A := small_architecture LittleEndian)
           (WellTyped0 := small_architecture_well_typed LittleEndian)
           small_world [x20; x03] [x07] eq_refl
           (raw_stage_symmetric _ _ _) (raw_stage_symmetric _ _ _)
           eq_refl eq_refl eq_refl eq_refl).
Defined.

(** X20 (no round trip on a big-endian host).  On a big-endian host the
    round trip of X19 fails for every state, as
    soon as the four bytes of [kVersion] do not read the same in both
    directions: the file written starts with [kVersion] most significant
    byte first, and [ReadParameters] stops at the version test, leaving
    the cleared stage objects as they are. *)
Theorem round_trip_fails_on_big_endian `{A : Architecture}
  (w : World) (ft net : storage) :
  host = BigEndian ->
  le_decode (rev (le_encode 4 kVersion)) <> kVersion ->
  Symmetric FeatureTransformer ->
  Symmetric Network ->
  feature_transformer w = Some ft ->
  network w = Some net ->
  length ft = Stage.sizeof FeatureTransformer ->
  length net = Stage.sizeof Network ->
  exists bs w1 s',
    WriteParameters ostream_empty w = Some ((true, mk_ostream bs false), w1) /\
    Initialize w1 = Some (tt, cleared w1) /\
    ReadParameters (istream_of bs) (cleared w1) = Some ((false, s'), cleared w1).
Proof.
  intros Hhost Hver Sft Snet Hft Hnet Lft Lnet.
  destruct (WriteParameters_bytes w ft net Sft Snet Hft Hnet Lft Lnet)
    as (bft & bnet & Hwrite & _).
  exists (container_bytes bft bnet), (serialized w).
  eexists. split; [exact Hwrite|]. split; [reflexivity|].
  apply ReadParameters_wrong_version.
  unfold container_bytes, header_bytes. cbv zeta.
  rewrite Hhost. cbn [object_representation]. rewrite <- !app_assoc.
  rewrite read_little_endian_bytes
    by (rewrite length_rev; apply length_le_encode).
  exact Hver.
Qed.

Lemma round_trip_fails_on_big_endian_witness :
  let A := small_architecture BigEndian in
  host = BigEndian /\
  le_decode (rev (le_encode 4 kVersion)) <> kVersion /\
  exists bs w1 s',
    WriteParameters ostream_empty small_world =
      Some ((true, mk_ostream bs false), w1) /\
    Initialize w1 = Some (tt, cleared w1) /\
    ReadParameters (istream_of bs) (cleared w1) = Some ((false, s'), cleared w1).
Proof.
  split; [reflexivity|]. split; [vm_compute; discriminate|].
  exact (round_trip_fails_on_big_endian
           (A := small_architecture BigEndian)
           small_world [x20; x03] [x07] eq_refl
           ltac:(vm_compute; discriminate)
           (raw_stage_symmetric _ _ _) (raw_stage_symmetric _ _ _)
           eq_refl eq_refl eq_refl eq_refl).
Defined.

(** C1 (round trip) on a big-endian host.  [WriteHeader] and
    [Detail::WriteParameters] emit each 32-bit field in the byte order of
    the host, while [ReadHeader] and [Detail::ReadParameters] decode it as
    little-endian.  On a big-endian host the file that [WriteParameters]
    has just produced, with symmetric stage classes, starts with the bytes
    of [kVersion] most significant first; [ReadParameters], run after
    [Initialize], rejects it at the version test and the stage objects stay
    cleared. *)
Theorem round_trip_rejected_on_big_endian_host :
  let A := small_architecture BigEndian in
  Symmetric FeatureTransformer /\
  Symmetric Network /\
  exists bs w1,
    WriteParameters ostream_empty small_world =
      Some ((true, mk_ostream bs false), w1) /\
    feature_transformer w1 = Some [x20; x03] /\
    network w1 = Some [x07] /\
    firstn 4 bs = [x7a; xf3; x2f; x16] /\
    Initialize w1 = Some (tt, cleared w1) /\
    ReadParameters (istream_of bs) (cleared w1) =
      Some ((false, istream_of (skipn 12 bs)), cleared w1).
Proof.
  cbv zeta. split; [apply raw_stage_symmetric|].
  split; [apply raw_stage_symmetric|].
  eexists _, _. split; [vm_compute; reflexivity|].
  repeat split.
Qed.

(** * Further properties of the translation unit *)

(** ** Scoring *)

(** Both branches of [ComputeScore], without the monad. *)
Lemma ComputeScore_unfold `{Architecture} (pos : Pos) (refresh : bool) (w : World) :
  ComputeScore pos refresh w =
    if negb refresh && computed_score (accumulator pos)
    then Some ((score (accumulator pos), pos), w)
    else
      match feature_transformer w, network w with
      | Some ft, Some net =>
          let transformed := fst (Transform ft pos refresh) in
          let pos1 := snd (Transform ft pos refresh) in
          let value := Z.quot (nth 0 (Propagate net transformed) 0) FV_SCALE in
          Some ((value,
                 mk_position
                   (mk_accumulator (accumulation (accumulator pos1)) value
                      (computed_accumulation (accumulator pos1)) true)
                   (board pos1)),
                record_events w [EvTransform refresh; EvPropagate])
      | _, _ => None
      end.
Proof.
  unfold ComputeScore.
  destruct (negb refresh && computed_score (accumulator pos)); [reflexivity|].
  run_monad.
  destruct (feature_transformer w) as [ft|] eqn:Eft; [|reflexivity].
  destruct (Transform ft pos refresh) as [tf pos1].
  cbn [fst snd network feature_transformer fileName savedfileName log].
  destruct (network w) as [net|] eqn:Enet; [|reflexivity].
  cbn [fst snd network feature_transformer fileName savedfileName log].
  unfold record_events. rewrite <- app_assoc, ?Eft, ?Enet. reflexivity.
Qed.

(** X1 (the cache is filled by every scoring call).  Whenever
    [ComputeScore] returns, with either value of [refresh], the
    accumulator of the position it hands back is marked valid and holds the
    value returned; an [evaluate] issued next returns that same value and
    changes nothing, so no stage is called again. *)
Theorem ComputeScore_then_evaluate `{Architecture}
  (pos pos' : Pos) (refresh : bool) (w w' : World) (value : Z) :
  ComputeScore pos refresh w = Some ((value, pos'), w') ->
  computed_score (accumulator pos') = true /\
  score (accumulator pos') = value /\
  evaluate pos' w' = Some ((value, pos'), w').
Proof.
  intros Hrun. rewrite ComputeScore_unfold in Hrun.
  assert (Hpost : computed_score (accumulator pos') = true /\
                  score (accumulator pos') = value).
  { destruct (negb refresh && computed_score (accumulator pos)) eqn:Hit.
    - injection Hrun as <- <- _.
      apply andb_true_iff in Hit. now destruct Hit.
    - destruct (feature_transformer w); [|discriminate].
      destruct (network w); [|discriminate].
      cbv zeta in Hrun. injection Hrun as <- <- _. split; reflexivity. }
  destruct Hpost as [Hvalid Hscore]. repeat split; try assumption.
  unfold evaluate. rewrite ComputeScore_unfold, Hvalid, Hscore. reflexivity.
Qed.

Lemma ComputeScore_then_evaluate_witness :
  let A := small_architecture LittleEndian in
  let pos : Pos := mk_position (mk_accumulator [] 5 false false) 0%nat in
  let pos' : Pos := mk_position (mk_accumulator [x20; x03] 45 true true) 0%nat in
  let w' := record_events small_world [EvTransform false; EvPropagate] in
  ComputeScore pos false small_world = Some ((45, pos'), w') /\
  evaluate pos' w' = Some ((45, pos'), w').
Proof.
  cbv zeta. split; [reflexivity|].
  exact (proj2 (proj2 (ComputeScore_then_evaluate
                         (H := small_architecture LittleEndian)
                         (mk_position (mk_accumulator [] 5 false false) 0%nat)
                         _ false small_world _ 45 eq_refl))).
Defined.

(** X2 (incremental query on an invalid cache).  When the accumulator is
    not marked valid and both stage objects are allocated, [evaluate]
    calls [Transform] with [refresh = false], then [Propagate] on its
    output, stores [output[0] / FV_SCALE] with the valid mark in the
    accumulator of the position as [Transform] left it, and returns it. *)
Theorem evaluate_cache_miss `{Architecture}
  (pos : Pos) (w : World) (ft net : storage) :
  computed_score (accumulator pos) = false ->
  feature_transformer w = Some ft ->
  network w = Some net ->
  let transformed := fst (Transform ft pos false) in
  let pos1 := snd (Transform ft pos false) in
  let value := Z.quot (nth 0 (Propagate net transformed) 0) FV_SCALE in
  evaluate pos w =
    Some ((value,
           mk_position
             (mk_accumulator (accumulation (accumulator pos1)) value
                (computed_accumulation (accumulator pos1)) true)
             (board pos1)),
          record_events w [EvTransform false; EvPropagate]).
Proof.
  intros Hinvalid Hft Hnet. cbv zeta. unfold evaluate.
  rewrite ComputeScore_unfold, Hinvalid, Hft, Hnet. reflexivity.
Qed.

Lemma evaluate_cache_miss_witness :
  let A := small_architecture LittleEndian in
  let pos : Pos := mk_position (mk_accumulator [] 5 false false) 0%nat in
  computed_score (accumulator pos) = false /\
  evaluate pos small_world =
    Some ((45, mk_position (mk_accumulator [x20; x03] 45 true true) 0%nat),
          record_events small_world [EvTransform false; EvPropagate]).
Proof.
  cbv zeta. split; [reflexivity|].
  exact (evaluate_cache_miss (H := small_architecture LittleEndian)
           (mk_position (mk_accumulator [] 5 false false) 0%nat)
           small_world [x20; x03] [x07] eq_refl eq_refl eq_refl).
Defined.

(** X3 (when scoring is defined).  [ComputeScore] dereferences the stage
    pointers only on the recomputation path: it is defined exactly when
    the call is a cache hit ([refresh] false and the accumulator valid) or
    both stage pointers are non-null.  In particular a forced
    recomputation before [Initialize] is undefined. *)
Theorem ComputeScore_defined_iff `{Architecture}
  (pos : Pos) (refresh : bool) (w : World) :
  ComputeScore pos refresh w <> None <->
  (refresh = false /\ computed_score (accumulator pos) = true) \/ allocated w.
Proof.
  rewrite ComputeScore_unfold. unfold allocated. split.
  - destruct (negb refresh && computed_score (accumulator pos)) eqn:Hit.
    + intros _. left. apply andb_true_iff in Hit. destruct Hit as [Hr Hc].
      apply negb_true_iff in Hr. now split.
    + destruct (feature_transformer w); [|intros F; now contradiction F].
      destruct (network w); [|intros F; now contradiction F].
      intros _. right. split; discriminate.
  - intros [[-> ->]|[Aft Anet]]; [discriminate|].
    destruct (negb refresh && computed_score (accumulator pos)); [discriminate|].
    destruct (feature_transformer w); [|contradiction].
    destruct (network w); [|contradiction].
    discriminate.
Qed.

Lemma ComputeScore_defined_iff_witness :
  let A := small_architecture LittleEndian in
  let pos : Pos := mk_position (mk_accumulator [] 5 false true) 0%nat in
  ComputeScore pos false initial_world <> None /\
  ComputeScore pos true initial_world = None /\
  ComputeScore pos true small_world <> None.
Proof.
  cbv zeta. split; [|split].
  - apply (proj2 (ComputeScore_defined_iff (H := small_architecture LittleEndian)
                    _ false initial_world)).
    left. split; reflexivity.
  - reflexivity.
  - apply (proj2 (ComputeScore_defined_iff (H := small_architecture LittleEndian)
                    _ true small_world)).
    right. split; discriminate.
Defined.

(** X4 (scoring does not touch the model).  Whatever [ComputeScore]
    returns, the stage objects and the file names of the world are the ones
    it started with; the log is either unchanged (cache hit) or extended by
    exactly one [Transform] call followed by one [Propagate] call. *)
Theorem ComputeScore_frame `{Architecture}
  (pos pos' : Pos) (refresh : bool) (w w' : World) (value : Z) :
  ComputeScore pos refresh w = Some ((value, pos'), w') ->
  feature_transformer w' = feature_transformer w /\
  network w' = network w /\
  fileName w' = fileName w /\
  savedfileName w' = savedfileName w /\
  (w' = w \/ log w' = log w ++ [EvTransform refresh; EvPropagate]).
Proof.
  intros Hrun. rewrite ComputeScore_unfold in Hrun.
  destruct (negb refresh && computed_score (accumulator pos)).
  - injection Hrun as _ _ <-. repeat split. now left.
  - destruct (feature_transformer w) eqn:Eft; [|discriminate].
    destruct (network w) eqn:Enet; [|discriminate].
    cbv zeta in Hrun. injection Hrun as _ _ <-.
    cbn [record_events feature_transformer network fileName savedfileName log].
    rewrite Eft, Enet. repeat split. now right.
Qed.

Lemma ComputeScore_frame_witness :
  let A := small_architecture LittleEndian in
  let pos : Pos := mk_position (mk_accumulator [] 5 false false) 0%nat in
  let pos' : Pos := mk_position (mk_accumulator [x20; x03] 45 true true) 0%nat in
  let w' := record_events small_world [EvTransform true; EvPropagate] in
  ComputeScore pos true small_world = Some ((45, pos'), w') /\
  feature_transformer w' = feature_transformer small_world /\
  network w' = network small_world.
Proof.
  cbv zeta. split; [reflexivity|].
  destruct (ComputeScore_frame (H := small_architecture LittleEndian)
              (mk_position (mk_accumulator [] 5 false false) 0%nat)
              (mk_position (mk_accumulator [x20; x03] 45 true true) 0%nat)
              true small_world
              (record_events small_world [EvTransform true; EvPropagate])
              45 eq_refl) as (Eft & Enet & _).
  split; [exact Eft|exact Enet].
Defined.

(** ** The piece-square base table *)

(** X5 (the table is its own mirror image).  Inside the bounds of the
    array, the entry of a piece seen from one side is the entry of the
    piece of the other colour (piece code with bit 3 flipped) seen from
    the other side; the four codes that are not pieces (0, 7, 8, 15) map
    to [PS_NONE] from both sides; outside the bounds there is no entry. *)
Theorem kpp_board_index_mirror `{PieceSquareBase} (pc c : nat) :
  (pc < 16)%nat -> (c < 2)%nat ->
  (exists v,
      kpp_board_index_at pc c = Some v /\
      kpp_board_index_at (Nat.lxor pc 8) (1 - c) = Some v) /\
  ((pc mod 8 = 0)%nat \/ (pc mod 8 = 7)%nat ->
   kpp_board_index_at pc c = Some PS_NONE) /\
  (forall pc' c', (16 <= pc')%nat \/ (2 <= c')%nat ->
                  kpp_board_index_at pc' c' = None).
Proof.
  intros Hpc Hc. split; [|split].
  - do 16 (destruct pc as [|pc]; [destruct c as [|[|c]]; [eexists; split; reflexivity ..|lia]|]).
    lia.
  - intros Hnone.
    do 16 (destruct pc as [|pc];
           [destruct c as [|[|c]];
            [try reflexivity; cbn in Hnone; lia ..|lia]|]).
    lia.
  - intros pc' c' [Hp|Hc'].
    + unfold kpp_board_index_at.
      replace (nth_error kpp_board_index pc') with (@None (list Z));
        [reflexivity|].
      symmetry. apply nth_error_None. cbn. lia.
    + unfold kpp_board_index_at.
      destruct (nth_error kpp_board_index pc') as [row|] eqn:E; [|reflexivity].
      apply nth_error_None.
      apply nth_error_In in E. cbn in E.
      repeat (destruct E as [<-|E]; [cbn; lia|]). contradiction.
Qed.

Lemma kpp_board_index_mirror_witness :
  let P := sample_piece_square_base in
  (3 < 16)%nat /\ (1 < 2)%nat /\
  kpp_board_index_at 3 1 = Some 321 /\
  kpp_board_index_at 11 0 = Some 321.
Proof.
  cbv zeta. split; [lia|]. split; [lia|].
  destruct (proj1 (kpp_board_index_mirror (H := sample_piece_square_base)
                     3 1 ltac:(lia) ltac:(lia))) as (v & E1 & E2).
  cbn in E1. injection E1 as <-. split; [reflexivity|exact E2].
Defined.

(** ** Writing the container *)

Lemma WriteHeader_failed `{Architecture}
  (o : ostream) (hash_value : Z) (architecture : string) :
  ofailbit o = true ->
  WriteHeader o hash_value architecture = (false, o).
Proof.
  intros Ho. unfold WriteHeader, ostream_write. rewrite !Ho. reflexivity.
Qed.

(** [WriteParameters] without the monad. *)
Lemma WriteParameters_unfold `{Architecture} (o : ostream) (w : World) :
  WriteParameters o w =
    let '(ok, o1) := WriteHeader o kHashValue GetArchitectureString in
    if negb ok then Some ((false, o1), w) else
    match feature_transformer w with
    | None => None
    | Some ft =>
        let '(ok1, o2) :=
          Stage.WriteParameters FeatureTransformer
            (ostream_write o1
               (object_representation host (Stage.GetHashValue FeatureTransformer)))
            ft in
        if negb ok1
        then Some ((false, o2), record_events w [EvSerialize FeatureTransformerId])
        else
          match network w with
          | None => None
          | Some net =>
              let '(ok2, o3) :=
                Stage.WriteParameters Network
                  (ostream_write o2
                     (object_representation host (Stage.GetHashValue Network)))
                  net in
              if negb ok2 then Some ((false, o3), serialized w)
              else Some ((negb (ofailbit o3), o3), serialized w)
          end
    end.
Proof.
  unfold WriteParameters.
  destruct (WriteHeader o kHashValue GetArchitectureString) as [ok o1].
  destruct ok; cbn [negb]; [|reflexivity].
  unfold bind at 1. unfold Detail.WriteParameters at 1.
  unfold bind at 1. unfold deref at 1. cbn [pointer_of stage_of].
  destruct (feature_transformer w) as [ft|] eqn:Eft; [|reflexivity].
  unfold bind at 1. cbn [emit ret].
  destruct (Stage.WriteParameters FeatureTransformer _ ft) as [ok1 o2].
  destruct ok1; cbn [negb]; [|unfold record_events; now rewrite Eft].
  unfold bind at 1. unfold Detail.WriteParameters at 1.
  unfold bind at 1. unfold deref at 1.
  cbn [pointer_of stage_of network].
  destruct (network w) as [net|] eqn:Enet; [|reflexivity].
  unfold bind at 1. cbn [emit ret feature_transformer network fileName savedfileName log].
  destruct (Stage.WriteParameters Network _ net) as [ok2 o3].
  unfold serialized, record_events.
  cbn [feature_transformer network fileName savedfileName log].
  rewrite ?Eft, ?Enet.
  destruct ok2; reflexivity.
Qed.

(** X6 (writing to a failed stream).  Handed a stream whose [failbit] is
    set, [WriteParameters] returns [false] right after the header: nothing
    is inserted into the stream, no stage is asked to serialize itself and
    no stage pointer is dereferenced, so the call is defined even before
    [Initialize]. *)
Theorem WriteParameters_failed_stream `{Architecture} (o : ostream) (w : World) :
  ofailbit o = true ->
  WriteParameters o w = Some ((false, o), w).
Proof.
  intros Ho. rewrite WriteParameters_unfold, WriteHeader_failed by assumption.
  reflexivity.
Qed.

Lemma WriteParameters_failed_stream_witness :
  let A := small_architecture LittleEndian in
  ofailbit (mk_ostream [x01] true) = true /\
  WriteParameters (mk_ostream [x01] true) initial_world =
    Some ((false, mk_ostream [x01] true), initial_world).
Proof.
  cbv zeta. split; [reflexivity|].
  exact (WriteParameters_failed_stream (H := small_architecture LittleEndian)
           (mk_ostream [x01] true) initial_world eq_refl).
Defined.

(** X7 (what a successful write implies).  [WriteParameters] returns
    [true] only if the stream it was given was usable, both stage pointers
    were non-null, the feature transformer and then the network each
    reported success on the stream positioned after their hash, and the
    final stream is not failed; the world then differs from the initial
    one by the two serialization calls only. *)
Theorem WriteParameters_success `{Architecture}
  (o o' : ostream) (w w' : World) :
  WriteParameters o w = Some ((true, o'), w') ->
  ofailbit o = false /\
  ofailbit o' = false /\
  w' = serialized w /\
  exists ft net o2,
    feature_transformer w = Some ft /\
    network w = Some net /\
    Stage.WriteParameters FeatureTransformer
      (mk_ostream
         (written o ++ header_bytes kHashValue GetArchitectureString ++
          object_representation host (Stage.GetHashValue FeatureTransformer))
         false) ft = (true, o2) /\
    Stage.WriteParameters Network
      (ostream_write o2
         (object_representation host (Stage.GetHashValue Network))) net =
      (true, o').
Proof.
  intros Hrun. rewrite WriteParameters_unfold in Hrun.
  destruct (ofailbit o) eqn:Ho.
  { rewrite WriteHeader_failed in Hrun by assumption. discriminate. }
  rewrite WriteHeader_bytes in Hrun by assumption. cbn [negb] in Hrun.
  destruct (feature_transformer w) as [ft|]; [|discriminate].
  unfold ostream_write at 1 in Hrun. cbn [ofailbit written] in Hrun.
  rewrite <- app_assoc in Hrun.
  destruct (Stage.WriteParameters FeatureTransformer _ ft) as [ok1 o2] eqn:W1.
  destruct ok1; cbn [negb] in Hrun; [|discriminate].
  destruct (network w) as [net|]; [|discriminate].
  destruct (Stage.WriteParameters Network _ net) as [ok2 o3] eqn:W2.
  destruct ok2; cbn [negb] in Hrun; [|discriminate].
  injection Hrun as Hf <- <-.
  apply negb_true_iff in Hf.
  split; [reflexivity|]. split; [assumption|]. split; [reflexivity|].
  exists ft, net, o2. repeat split; assumption.
Qed.

Lemma WriteParameters_success_witness :
  let A := small_architecture LittleEndian in
  exists o' ft net,
    WriteParameters ostream_empty small_world =
      Some ((true, o'), serialized small_world) /\
    ofailbit o' = false /\
    feature_transformer small_world = Some ft /\
    network small_world = Some net.
Proof.
  cbv zeta.
  destruct (WriteParameters (H := small_architecture LittleEndian)
              ostream_empty small_world) as [[[ok o'] w']|] eqn:E;
    [|vm_compute in E; discriminate].
  assert (Hok : ok = true) by (vm_compute in E; now injection E as <- _ _).
  subst ok.
  destruct (WriteParameters_success (H := small_architecture LittleEndian)
              ostream_empty o' small_world w' E)
    as (_ & Ho' & -> & ft & net & o2 & Eft & Enet & _).
  exists o', ft, net. repeat split; assumption.
Defined.

(** X8 (a stage that cannot be written stops the write).  On a usable
    stream, if the feature transformer's [WriteParameters] returns
    [false], so does the whole write; the network is then neither
    serialized nor dereferenced (its pointer may even be null), and the
    stream is returned as the feature transformer left it. *)
Theorem WriteParameters_first_stage_fails `{Architecture}
  (o o2 : ostream) (w : World) (ft : storage) :
  ofailbit o = false ->
  feature_transformer w = Some ft ->
  Stage.WriteParameters FeatureTransformer
    (mk_ostream
       (written o ++ header_bytes kHashValue GetArchitectureString ++
        object_representation host (Stage.GetHashValue FeatureTransformer))
       false) ft = (false, o2) ->
  WriteParameters o w =
    Some ((false, o2), record_events w [EvSerialize FeatureTransformerId]).
Proof.
  intros Ho Hft Hstage. rewrite WriteParameters_unfold.
  rewrite WriteHeader_bytes by assumption. cbn [negb]. rewrite Hft.
  unfold ostream_write. cbn [ofailbit written].
  rewrite <- app_assoc, Hstage. reflexivity.
Qed.

Lemma WriteParameters_first_stage_fails_witness :
  let A := unwritable_architecture in
  let w := mk_world (Some [x20; x03]) None "" "nn.bin" [] in
  exists o2,
    ofailbit ostream_empty = false /\
    feature_transformer w = Some [x20; x03] /\
    ofailbit o2 = true /\
    WriteParameters ostream_empty w =
      Some ((false, o2), record_events w [EvSerialize FeatureTransformerId]).
Proof.
  cbv zeta. eexists. split; [reflexivity|]. split; [reflexivity|].
  split;
    [|exact (WriteParameters_first_stage_fails (H := unwritable_architecture)
               ostream_empty _
               (mk_world (Some [x20; x03]) None "" "nn.bin" [])
               [x20; x03] eq_refl eq_refl eq_refl)].
  reflexivity.
Defined.

Lemma length_header_bytes `{Architecture} (hash_value : Z) (architecture : string) :
  length (header_bytes hash_value architecture) =
  (12 + Z.to_nat (to_u32 (Z.of_nat (String.length architecture))))%nat.
Proof.
  unfold header_bytes. cbv zeta.
  rewrite !length_app, !length_object_representation, length_firstn,
    length_list_byte_of_string.
  assert (to_u32 (Z.of_nat (String.length architecture)) <=
          Z.of_nat (String.length architecture)).
  { unfold to_u32. apply Z.mod_le; [lia|unfold u32_max; lia]. }
  pose proof (to_u32_range (Z.of_nat (String.length architecture))).
  lia.
Qed.

(** X9 (layout of the file written).  With both stage objects allocated
    at their size and symmetric stage classes, [WriteParameters] on an
    empty stream succeeds on a host of either byte order and produces, in
    this order: the header (twelve bytes of fixed fields, then the
    architecture string cut at its length modulo 2^32), the four bytes of
    the feature transformer hash, the feature transformer's bytes, the four
    bytes of the network hash and the network's bytes.  The bytes of a
    stage are the ones its own [WriteParameters] appends when handed the
    stream as it stands after the stage hash, and they decode back to the
    object written.  The stage objects are not modified. *)
Theorem WriteParameters_layout `{Architecture} (w : World) (ft net : storage) :
  Symmetric FeatureTransformer ->
  Symmetric Network ->
  feature_transformer w = Some ft ->
  network w = Some net ->
  length ft = Stage.sizeof FeatureTransformer ->
  length net = Stage.sizeof Network ->
  exists bft bnet w',
    WriteParameters ostream_empty w =
      Some ((true, mk_ostream (container_bytes bft bnet) false), w') /\
    length (container_bytes bft bnet) =
      (12 + Z.to_nat (to_u32 (Z.of_nat (String.length GetArchitectureString)))
       + 4 + length bft + 4 + length bnet)%nat /\
    feature_transformer w' = Some ft /\
    network w' = Some net /\
    log w' = log w ++ [EvSerialize FeatureTransformerId; EvSerialize NetworkId] /\
    (let before_ft :=
       header_bytes kHashValue GetArchitectureString ++
       object_representation host (Stage.GetHashValue FeatureTransformer) in
     let before_net :=
       (before_ft ++ bft) ++
       object_representation host (Stage.GetHashValue Network) in
     Stage.WriteParameters FeatureTransformer (mk_ostream before_ft false) ft =
       (true, mk_ostream (before_ft ++ bft) false) /\
     Stage.WriteParameters Network (mk_ostream before_net false) net =
       (true, mk_ostream (before_net ++ bnet) false)) /\
    (forall obj0 r,
        length obj0 = Stage.sizeof FeatureTransformer ->
        Stage.ReadParameters FeatureTransformer (istream_of (bft ++ r)) obj0 =
          (true, ft, istream_of r)) /\
    (forall obj0 r,
        length obj0 = Stage.sizeof Network ->
        Stage.ReadParameters Network (istream_of (bnet ++ r)) obj0 =
          (true, net, istream_of r)).
Proof.
  intros [Sft] [Snet] Hft Hnet Lft Lnet.
  set (hdr := header_bytes kHashValue GetArchitectureString).
  set (hft := object_representation host (Stage.GetHashValue FeatureTransformer)).
  set (hnet := object_representation host (Stage.GetHashValue Network)).
  destruct (Sft (mk_ostream (hdr ++ hft) false) ft Lft eq_refl)
    as (bft & Wft & Rft).
  cbn [written] in Wft.
  destruct (Snet (mk_ostream (((hdr ++ hft) ++ bft) ++ hnet) false)
              net Lnet eq_refl) as (bnet & Wnet & Rnet).
  cbn [written] in Wnet.
  exists bft, bnet, (serialized w).
  split; [|split; [|split; [exact Hft|split; [exact Hnet|split]]]].
  - rewrite WriteParameters_unfold.
    rewrite (WriteHeader_bytes ostream_empty _ _ eq_refl).
    cbn [negb written ostream_empty app]. fold hdr. rewrite Hft.
    unfold ostream_write at 1. cbn [ofailbit written]. fold hft.
    rewrite Wft. cbn [negb]. rewrite Hnet.
    unfold ostream_write at 1. cbn [ofailbit written]. fold hnet.
    rewrite Wnet. cbn [negb ofailbit].
    unfold container_bytes. fold hdr hft hnet.
    now rewrite <- !app_assoc.
  - unfold container_bytes.
    rewrite !length_app, length_header_bytes, !length_object_representation.
    lia.
  - unfold serialized, record_events. cbn [log]. now rewrite <- app_assoc.
  - cbv zeta. fold hdr hft hnet.
    split; [split; [exact Wft|exact Wnet]|split; [exact Rft|exact Rnet]].
Qed.

Lemma WriteParameters_layout_witness :
  let A := small_architecture BigEndian in
  exists bft bnet w',
    WriteParameters ostream_empty small_world =
      Some ((true, mk_ostream (container_bytes bft bnet) false), w') /\
    length (container_bytes bft bnet) = (12 + 39 + 4 + length bft + 4 + length bnet)%nat /\
    feature_transformer w' = Some [x20; x03] /\
    network w' = Some [x07] /\
    log w' = [EvSerialize FeatureTransformerId; EvSerialize NetworkId] /\
    (forall obj0 r,
        length obj0 = 2%nat ->
        Stage.ReadParameters FeatureTransformer (istream_of (bft ++ r)) obj0 =
          (true, [x20; x03], istream_of r)).
Proof.
  cbv zeta.
  destruct (WriteParameters_layout (H := small_architecture BigEndian)
              small_world [x20; x03] [x07]
              (raw_stage_symmetric _ _ _) (raw_stage_symmetric _ _ _)
              eq_refl eq_refl eq_refl eq_refl)
    as (bft & bnet & w' & Hw & Hlen & Hft & Hnet & Hlog & _ & Rft & _).
  exists bft, bnet, w'.
  split; [exact Hw|]. split; [exact Hlen|]. split; [exact Hft|].
  split; [exact Hnet|]. split; [exact Hlog|exact Rft].
Defined.

(** ** Reading the header *)

(** The three fields of a twelve-byte prefix, seen in the whole file. *)
Lemma header_prefix_fields (bs : list byte) :
  (12 <= length bs)%nat ->
  firstn 4 (firstn 12 bs) = firstn 4 bs /\
  firstn 4 (skipn 4 (firstn 12 bs)) = firstn 4 (skipn 4 bs) /\
  skipn 8 (firstn 12 bs) = firstn 4 (skipn 8 bs).
Proof.
  intros H12. repeat split.
  - now rewrite firstn_firstn.
  - now rewrite skipn_firstn_comm, firstn_firstn.
  - now rewrite skipn_firstn_comm.
Qed.

(** X10 (which streams [ReadHeader] accepts).  On a fresh stream over the
    bytes [bs], [ReadHeader] succeeds exactly when [bs] holds twelve bytes
    of fixed fields whose first field decodes to [kVersion], followed by at
    least as many bytes as the third field announces; it then returns the
    second field as the hash, those bytes as the architecture string, and
    leaves the stream right after them.  A zero-length architecture string
    is accepted. *)
Theorem ReadHeader_accepts_iff `{Architecture}
  (bs : list byte) (hash_value : Z) (architecture : list byte) (s' : istream) :
  ReadHeader (istream_of bs) [] = (true, hash_value, architecture, s') <->
  exists n,
    (12 + n <= length bs)%nat /\
    n = Z.to_nat (le_decode (firstn 4 (skipn 8 bs))) /\
    le_decode (firstn 4 bs) = kVersion /\
    hash_value = le_decode (firstn 4 (skipn 4 bs)) /\
    architecture = firstn n (skipn 12 bs) /\
    s' = istream_of (skipn (12 + n) bs).
Proof.
  destruct (Nat.lt_ge_cases (length bs) 12) as [Hshort|H12].
  { split.
    - intros E. destruct (ReadHeader_short bs Hshort) as (hv & arch & t & E').
      rewrite E' in E. discriminate.
    - intros (n & Hn & _). lia. }
  assert (Hh : length (firstn 12 bs) = 12%nat) by (rewrite length_firstn; lia).
  pose proof (ReadHeader_fields (firstn 12 bs) (skipn 12 bs) Hh) as Hfields.
  rewrite firstn_skipn in Hfields. cbv zeta in Hfields.
  destruct (header_prefix_fields bs H12) as (F1 & F2 & F3).
  rewrite F1, F2, F3 in Hfields. rewrite Hfields. clear Hfields.
  set (n := Z.to_nat (le_decode (firstn 4 (skipn 8 bs)))).
  destruct (le_decode (firstn 4 bs) =? kVersion) eqn:Ever; cbn [negb].
  2:{ split; [discriminate|]. intros (n' & _ & _ & Hv & _).
      apply Z.eqb_neq in Ever. contradiction. }
  apply Z.eqb_eq in Ever.
  destruct (Nat.le_gt_cases n (length (skipn 12 bs))) as [Hn|Hn].
  - rewrite istream_read_split by assumption.
    cbn [failbit istream_of negb].
    rewrite length_firstn, Nat.min_l, Nat.sub_diag by assumption.
    cbn [repeat]. rewrite app_nil_r, skipn_skipn.
    rewrite length_skipn in Hn.
    split.
    + intros E. injection E as <- <- <-. exists n.
      repeat split; try assumption; try lia.
      now rewrite Nat.add_comm.
    + intros (n' & _ & -> & _ & -> & -> & ->).
      fold n. now rewrite (Nat.add_comm 12 n).
  - rewrite istream_read_short by assumption. cbn [failbit negb].
    split; [discriminate|].
    intros (n' & Hn' & -> & _). fold n in Hn'.
    rewrite length_skipn in Hn. lia.
Qed.

Lemma ReadHeader_accepts_iff_witness :
  let A := small_architecture LittleEndian in
  ReadHeader (istream_of small_file) [] =
    (true, 0x3E5AA6EE, [x68; x69], istream_of (skipn 14 small_file)).
Proof.
  cbv zeta.
  apply (proj2 (ReadHeader_accepts_iff (H := small_architecture LittleEndian)
                  small_file _ _ _)).
  exists 2%nat. vm_compute. repeat split; lia.
Defined.

(** X11 (header round trip).  On a little-endian host, for a hash that
    fits in 32 bits and an architecture string shorter than 2^32,
    [WriteHeader] on an empty stream succeeds, and [ReadHeader] on the
    bytes written, followed by anything, succeeds, returns that hash and
    that string, and leaves the stream on what follows. *)
Theorem WriteHeader_ReadHeader `{A : Architecture} `{!WellTyped A}
  (hash_value : Z) (architecture : string) (r : list byte) :
  host = LittleEndian ->
  0 <= hash_value < u32_max ->
  Z.of_nat (String.length architecture) < u32_max ->
  exists bs,
    WriteHeader ostream_empty hash_value architecture =
      (true, mk_ostream bs false) /\
    ReadHeader (istream_of (bs ++ r)) [] =
      (true, hash_value, list_byte_of_string architecture, istream_of r).
Proof.
  intros Hhost Hhv Hlen.
  exists (header_bytes hash_value architecture).
  split; [exact (WriteHeader_bytes ostream_empty _ _ eq_refl)|].
  unfold ReadHeader, header_bytes. cbv zeta.
  rewrite Hhost. cbn [object_representation].
  assert (Esize : to_u32 (Z.of_nat (String.length architecture)) =
                  Z.of_nat (String.length architecture)).
  { unfold to_u32. apply Z.mod_small. lia. }
  rewrite Esize, Nat2Z.id.
  rewrite <- (length_list_byte_of_string architecture), firstn_all.
  rewrite length_list_byte_of_string.
  rewrite <- !app_assoc.
  rewrite read_little_endian_encode by apply kVersion_u32. cbv beta iota.
  rewrite read_little_endian_encode by assumption. cbv beta iota.
  rewrite read_little_endian_encode by lia. cbv beta iota.
  rewrite Z.eqb_refl. cbn [failbit istream_of negb orb].
  rewrite Nat2Z.id.
  rewrite istream_read_enough by apply length_list_byte_of_string.
  cbn [failbit istream_of negb].
  rewrite firstn_nil. cbn [app length].
  rewrite Nat.sub_0_r, skipn_repeat_x00.
  rewrite length_list_byte_of_string, Nat.sub_diag. cbn [repeat].
  now rewrite app_nil_r.
Qed.

Lemma WriteHeader_ReadHeader_witness :
  let A := small_architecture LittleEndian in
  exists bs,
    WriteHeader ostream_empty 7 "HalfKP" = (true, mk_ostream bs false) /\
    ReadHeader (istream_of (bs ++ [xff])) [] =
      (true, 7, list_byte_of_string "HalfKP", istream_of [xff]).
Proof.
  exact (WriteHeader_ReadHeader
           (A := small_architecture LittleEndian)
           (WellTyped0 := small_architecture_well_typed LittleEndian)
           7 "HalfKP" [xff] eq_refl
           ltac:(unfold u32_max; lia) ltac:(unfold u32_max; cbn; lia)).
Defined.

(** ** Reading the container: what is left untouched *)

Lemma read_little_endian_not_good (s : istream) :
  good s = false ->
  read_little_endian s = (0, mk_istream (rest s) (eofbit s) true).
Proof.
  intros Hg. unfold read_little_endian, istream_read. now rewrite Hg.
Qed.

Lemma ReadHeader_not_good `{Architecture} (s : istream) :
  good s = false ->
  ReadHeader s [] = (false, 0, [], mk_istream (rest s) (eofbit s) true).
Proof.
  intros Hg. unfold ReadHeader.
  rewrite read_little_endian_not_good by assumption. cbv beta iota.
  rewrite read_little_endian_failed by reflexivity. cbv beta iota.
  rewrite read_little_endian_failed by reflexivity. cbv beta iota.
  reflexivity.
Qed.

Lemma good_istream_of (s : istream) :
  good s = true -> s = istream_of (rest s).
Proof.
  destruct s as [r e f]. unfold good. cbn.
  destruct e, f; try discriminate. reflexivity.
Qed.

(** X12 (streams that cannot hold a header).  When the stream handed to
    [ReadParameters] is not in a good state (for instance the stream of a
    file that could not be opened) or holds fewer than twelve bytes (for
    instance an empty file), the read returns [false] and the world is
    unchanged: no stage is deserialized and no stage object is written. *)
Theorem ReadParameters_unusable_stream `{Architecture} (s : istream) (w : World) :
  good s = false \/ (length (rest s) < 12)%nat ->
  exists t, ReadParameters s w = Some ((false, t), w).
Proof.
  intros Hcase.
  destruct (good s) eqn:Hg.
  - destruct Hcase as [F|Hshort]; [discriminate|].
    rewrite (good_istream_of s Hg).
    destruct (ReadHeader_short (rest s) Hshort) as (hv & arch & t & E).
    exists t. exact (ReadParameters_header_failed _ w _ _ _ E).
  - eexists.
    exact (ReadParameters_header_failed _ w _ _ _ (ReadHeader_not_good s Hg)).
Qed.

Lemma ReadParameters_unusable_stream_witness :
  let A := small_architecture LittleEndian in
  (exists t, ReadParameters (istream_of []) small_world =
               Some ((false, t), small_world)) /\
  (exists t, ReadParameters (ifstream (fun _ => None) "missing.nnue") small_world =
               Some ((false, t), small_world)).
Proof.
  cbv zeta. split.
  - apply (ReadParameters_unusable_stream (H := small_architecture LittleEndian)).
    right. cbn. lia.
  - apply (ReadParameters_unusable_stream (H := small_architecture LittleEndian)).
    left. reflexivity.
Defined.

(** What a stage block read can do to the world. *)
Lemma Detail_ReadParameters_cases `{Architecture}
  (m : StageId) (s s' : istream) (w w' : World) (r : bool) :
  Detail.ReadParameters m s w = Some ((r, s'), w') ->
  (r = false /\ w' = w) \/
  (exists obj obj',
      pointer_of m w = Some obj /\
      Stage.ReadParameters (stage_of m) (snd (read_little_endian s)) obj =
        (r, obj', s') /\
      w' = deserialized m obj' w).
Proof.
  intros Hrun. rewrite Detail_ReadParameters_unfold in Hrun.
  destruct (read_little_endian s) as [header s1]. cbn [snd].
  destruct (failbit s1 || negb (header =? _)).
  - injection Hrun as <- _ <-. now left.
  - destruct (pointer_of m w) as [obj|]; [|discriminate].
    destruct (Stage.ReadParameters _ s1 obj) as [[ok obj'] s2] eqn:R.
    injection Hrun as <- <- <-. right. exists obj, obj'. auto.
Qed.

(** X13 (a stage block read touches its own stage only).
    [Detail::ReadParameters] for one stage never changes the other
    stage's pointer nor the file names.  Either it leaves the world as it
    found it and returns [false] (hash check failed), or it has called the
    stage's [ReadParameters] exactly once and stored the object that call
    produced, whether the call succeeded or not. *)
Theorem Detail_ReadParameters_frame `{Architecture}
  (m : StageId) (s s' : istream) (w w' : World) (r : bool) :
  Detail.ReadParameters m s w = Some ((r, s'), w') ->
  pointer_of (other_stage m) w' = pointer_of (other_stage m) w /\
  fileName w' = fileName w /\
  savedfileName w' = savedfileName w /\
  ((r = false /\ w' = w) \/
   (exists obj obj',
       pointer_of m w = Some obj /\
       Stage.ReadParameters (stage_of m) (snd (read_little_endian s)) obj =
         (r, obj', s') /\
       pointer_of m w' = Some obj' /\
       log w' = log w ++ [EvDeserialize m])).
Proof.
  intros Hrun.
  destruct (Detail_ReadParameters_cases m s s' w w' r Hrun)
    as [[-> ->]|(obj & obj' & Hp & Hr & ->)].
  - repeat split. now left.
  - split; [now destruct m|]. split; [now destruct m|]. split; [now destruct m|].
    right. exists obj, obj'. split; [exact Hp|]. split; [exact Hr|].
    now destruct m.
Qed.

Lemma Detail_ReadParameters_frame_witness :
  let A := small_architecture LittleEndian in
  let s := istream_of (skipn 14 small_file) in
  let w' := deserialized FeatureTransformerId [x11; x22] small_world in
  Detail.ReadParameters FeatureTransformerId s small_world =
    Some ((true, istream_of (skipn 20 small_file)), w') /\
  network w' = network small_world.
Proof.
  cbv zeta. split; [reflexivity|].
  exact (proj1 (Detail_ReadParameters_frame
                  (H := small_architecture LittleEndian)
                  FeatureTransformerId (istream_of (skipn 14 small_file))
                  (istream_of (skipn 20 small_file)) small_world
                  (deserialized FeatureTransformerId [x11; x22] small_world)
                  true eq_refl)).
Defined.

(** The worlds [ReadParameters] can end in. *)
Lemma ReadParameters_cases `{Architecture}
  (s s' : istream) (w w' : World) (r : bool) :
  ReadParameters s w = Some ((r, s'), w') ->
  (r = false /\ w' = w) \/
  (r = false /\ exists ft', w' = deserialized FeatureTransformerId ft' w) \/
  (exists ft' net', w' = loaded ft' net' w).
Proof.
  intros Hrun. rewrite ReadParameters_unfold in Hrun.
  destruct (ReadHeader s []) as [[[ok hv] arch] s1].
  destruct ok; cbn [negb] in Hrun; [|injection Hrun as <- _ <-; now left].
  destruct (negb (hv =? kHashValue)); [injection Hrun as <- _ <-; now left|].
  destruct (Detail.ReadParameters FeatureTransformerId s1 w)
    as [[[ok1 s2] w1]|] eqn:D1; [|discriminate].
  destruct (Detail_ReadParameters_cases _ _ _ _ _ _ D1)
    as [[-> ->]|(obj & ft' & _ & _ & ->)].
  { cbn [negb] in Hrun. injection Hrun as <- _ <-. now left. }
  destruct ok1; cbn [negb] in Hrun.
  2:{ injection Hrun as <- _ <-. right. left. split; [reflexivity|]. now exists ft'. }
  destruct (Detail.ReadParameters NetworkId s2 _)
    as [[[ok2 s3] w2]|] eqn:D2; [|discriminate].
  destruct (Detail_ReadParameters_cases _ _ _ _ _ _ D2)
    as [[-> ->]|(obj2 & net' & _ & _ & ->)].
  { cbn [negb] in Hrun. injection Hrun as <- _ <-. right. left.
    split; [reflexivity|]. now exists ft'. }
  assert (Hw : w' = loaded ft' net' w).
  { destruct ok2; cbn [negb] in Hrun;
      [destruct (failbit s3)|]; now injection Hrun as _ _ <-. }
  right. right. eauto.
Qed.

(** X14 (order and extent of a load).  [ReadParameters] never changes
    [fileName] or [savedfileName].  It deserializes the stages in a fixed
    order and at most once each: the calls it adds to the log are none, or
    the feature transformer alone, or the feature transformer followed by
    the network; the network is never deserialized first or alone.  A
    successful read has deserialized both, and a read that added nothing to
    the log left the whole world as it was. *)
Theorem ReadParameters_frame `{Architecture}
  (s s' : istream) (w w' : World) (r : bool) :
  ReadParameters s w = Some ((r, s'), w') ->
  fileName w' = fileName w /\
  savedfileName w' = savedfileName w /\
  (w' = w \/
   log w' = log w ++ [EvDeserialize FeatureTransformerId] /\
     network w' = network w \/
   log w' = log w ++ [EvDeserialize FeatureTransformerId;
                      EvDeserialize NetworkId]) /\
  (r = true ->
   log w' = log w ++ [EvDeserialize FeatureTransformerId;
                      EvDeserialize NetworkId]).
Proof.
  intros Hrun.
  destruct (ReadParameters_cases s s' w w' r Hrun)
    as [[-> ->]|[[-> (ft' & ->)]|(ft' & net' & ->)]].
  - split; [reflexivity|]. split; [reflexivity|].
    split; [now left|discriminate].
  - split; [reflexivity|]. split; [reflexivity|].
    split; [right; left; split; reflexivity|discriminate].
  - assert (L : log (loaded ft' net' w) =
                log w ++ [EvDeserialize FeatureTransformerId;
                          EvDeserialize NetworkId]).
    { cbn. now rewrite <- app_assoc. }
    split; [reflexivity|]. split; [reflexivity|].
    split; [right; right; exact L|intros _; exact L].
Qed.

Lemma ReadParameters_frame_witness :
  let A := small_architecture LittleEndian in
  exists s' w',
    ReadParameters (istream_of bad_stage2_file) small_world =
      Some ((false, s'), w') /\
    log w' = [EvDeserialize FeatureTransformerId] /\
    network w' = Some [x07] /\
    fileName w' = fileName small_world.
Proof.
  cbv zeta.
  exists (istream_of (skipn 24 bad_stage2_file)),
         (deserialized FeatureTransformerId [x11; x22] small_world).
  assert (E : ReadParameters (H := small_architecture LittleEndian)
                (istream_of bad_stage2_file) small_world =
              Some ((false, istream_of (skipn 24 bad_stage2_file)),
                    deserialized FeatureTransformerId [x11; x22] small_world))
    by reflexivity.
  destruct (ReadParameters_frame (H := small_architecture LittleEndian)
              _ _ _ _ _ E) as (Hname & _ & _ & _).
  split; [exact E|]. split; [reflexivity|]. split; [reflexivity|exact Hname].
Defined.

(** X15 (trailing data is noticed last).  For stage classes that read
    exactly their byte range: when the bytes [bs] are accepted, the same
    bytes followed by extra data are rejected, but only after both stages
    have been deserialized; the world the rejected read leaves is the one
    the accepted read leaves, with both stage objects holding the
    parameters of the file, and the stream stands on the first extra
    byte. *)
Theorem ReadParameters_trailing_data `{Architecture}
  (bs : list byte) (w : World) (s' : istream) (w' : World)
  (x : byte) (extra : list byte) :
  ExactRange FeatureTransformer ->
  ExactRange Network ->
  ReadParameters (istream_of bs) w = Some ((true, s'), w') ->
  ReadParameters (istream_of (bs ++ x :: extra)) w =
    Some ((false, istream_of (x :: extra)), w').
Proof.
  intros Xft Xnet Hacc.
  rewrite ReadParameters_container in Hacc.
  destruct (container_reader w (istream_of bs)) as [[[ok w2] s3]|] eqn:C;
    [|discriminate].
  destruct ok; cbn [negb] in Hacc; [|discriminate].
  destruct (exact_container_reader w Xft Xnet bs w2 s3 C)
    as (k & Hk & -> & Hext & _).
  cbn [failbit istream_of] in Hacc.
  unfold istream_peek in Hacc.
  cbn [good istream_of eofbit failbit negb andb rest] in Hacc.
  destruct (skipn k bs) as [|c tl] eqn:Sk; cbn [fst snd] in Hacc; [|discriminate].
  injection Hacc as _ <-.
  assert (Ek : k = length bs).
  { apply (f_equal (@length byte)) in Sk. rewrite length_skipn in Sk.
    cbn [length] in Sk. lia. }
  subst k. specialize (Hext (x :: extra)). rewrite firstn_all in Hext.
  rewrite ReadParameters_container, Hext. reflexivity.
Qed.

Lemma ReadParameters_trailing_data_witness :
  let A := small_architecture LittleEndian in
  ReadParameters (istream_of small_file) small_world =
    Some ((true, mk_istream [] true false), loaded [x11; x22] [x33] small_world) /\
  ReadParameters (istream_of (small_file ++ [x00])) small_world =
    Some ((false, istream_of [x00]), loaded [x11; x22] [x33] small_world).
Proof.
  cbv zeta. split; [reflexivity|].
  exact (ReadParameters_trailing_data (H := small_architecture LittleEndian)
           small_file small_world (mk_istream [] true false)
           (loaded [x11; x22] [x33] small_world) x00 []
           (raw_stage_exact _ _ _) (raw_stage_exact _ _ _) eq_refl).
Defined.

(** ** Loading a file *)

(** [load_eval_file] past the switch. *)
Lemma load_eval_file_unfold `{Architecture}
  (fs : FileSystem) (Options : OptionsMap) (evalFile : string) (w : World) :
  Options "SkipLoadingEval"%string = false ->
  load_eval_file fs Options evalFile w =
    match ReadParameters (ifstream fs evalFile) (opened evalFile w) with
    | None => None
    | Some ((result, _), w') => Some (result, w')
    end.
Proof.
  intros Hskip. unfold load_eval_file.
  unfold bind at 1. rewrite Initialize_cleared, Hskip.
  unfold bind at 1. cbn [set_fileName]. unfold bind at 1. cbn [emit].
  unfold bind. unfold opened, cleared.
  cbn [feature_transformer network fileName savedfileName log].
  destruct (ReadParameters _ _) as [[[result s'] w']|]; reflexivity.
Qed.

Lemma allocated_opened `{Architecture} (evalFile : string) (w : World) :
  allocated (opened evalFile w).
Proof. split; discriminate. Qed.

(** Where the stage objects come from after [ReadParameters]. *)
Lemma ReadParameters_origin `{Architecture}
  (s s' : istream) (w w' : World) (r : bool) (ft0 net0 : storage) :
  feature_transformer w = Some ft0 ->
  network w = Some net0 ->
  ReadParameters s w = Some ((r, s'), w') ->
  (feature_transformer w' = Some ft0 \/
   exists stream ok obj' stream',
     Stage.ReadParameters FeatureTransformer stream ft0 = (ok, obj', stream') /\
     feature_transformer w' = Some obj') /\
  (network w' = Some net0 \/
   exists stream ok obj' stream',
     Stage.ReadParameters Network stream net0 = (ok, obj', stream') /\
     network w' = Some obj').
Proof.
  intros Hft Hnet Hrun. rewrite ReadParameters_unfold in Hrun.
  destruct (ReadHeader s []) as [[[ok hv] arch] s1].
  destruct ok; cbn [negb] in Hrun;
    [|injection Hrun as _ _ <-; split; now left].
  destruct (negb (hv =? kHashValue));
    [injection Hrun as _ _ <-; split; now left|].
  destruct (Detail.ReadParameters FeatureTransformerId s1 w)
    as [[[ok1 s2] w1]|] eqn:D1; [|discriminate].
  destruct (Detail_ReadParameters_cases _ _ _ _ _ _ D1)
    as [[-> ->]|(obj & ft' & Pft & Rft & ->)].
  { cbn [negb] in Hrun. injection Hrun as _ _ <-. split; now left. }
  cbn [pointer_of stage_of] in Pft, Rft. rewrite Hft in Pft.
  injection Pft as <-.
  assert (Oft : exists stream ok obj' stream',
             Stage.ReadParameters FeatureTransformer stream ft0 =
               (ok, obj', stream') /\ Some ft' = Some obj') by eauto 6.
  destruct ok1; cbn [negb] in Hrun.
  2:{ injection Hrun as _ _ <-. split; [right; exact Oft|now left]. }
  destruct (Detail.ReadParameters NetworkId s2 _)
    as [[[ok2 s3] w2]|] eqn:D2; [|discriminate].
  destruct (Detail_ReadParameters_cases _ _ _ _ _ _ D2)
    as [[-> ->]|(obj2 & net' & Pnet & Rnet & ->)].
  { cbn [negb] in Hrun. injection Hrun as _ _ <-.
    split; [right; exact Oft|now left]. }
  cbn [pointer_of stage_of deserialized set_pointer record_events network] in Pnet, Rnet.
  rewrite Hnet in Pnet. injection Pnet as <-.
  assert (Hw : w' = loaded ft' net' w).
  { destruct ok2; cbn [negb] in Hrun;
      [destruct (failbit s3)|]; now injection Hrun as _ _ <-. }
  subst w'. split; [right; exact Oft|].
  right. exists (snd (read_little_endian s2)), ok2, net', s3.
  split; [exact Rnet|reflexivity].
Qed.

(** C10 (load destroys prior state).  Every call of [load_eval_file]
    starts by clearing both stage objects.
    - [Initialize] runs first and leaves both stages allocated and
      zero-filled; running the load in [w] is running it in the cleared
      world, so its outcome is the same whatever the stage pointers held
      before, and the call always returns with both stages allocated.
    - On the skip path the result is [true] and the final world is the
      cleared one plus one console line: both stages are zero-filled.
    - Otherwise the result and final world are those of [ReadParameters]
      run on the stream of the file in a world whose two stage objects are
      zero-filled blocks of [sizeof(T)] bytes: the clearing is done before
      the first byte is read.
    - Whatever the result, each stage object is afterwards either the
      zero-filled block or what the stage's own [ReadParameters] made of
      the zero-filled block; and a load during which no stage was
      deserialized leaves both stages zero-filled.  The previous parameters
      are never what is left. *)
Theorem load_eval_file_discards_prior_state `{Architecture}
  (fs : FileSystem) (Options : OptionsMap) (evalFile : string)
  (w : World) (p q : AlignedPtr) :
  Initialize w = Some (tt, cleared w) /\
  load_eval_file fs Options evalFile w =
    load_eval_file fs Options evalFile (cleared w) /\
  load_eval_file fs Options evalFile (with_stages p q w) =
    load_eval_file fs Options evalFile w /\
  (exists result w',
    load_eval_file fs Options evalFile w = Some (result, w') /\ allocated w') /\
  (forall m, exists zeros,
      pointer_of m (cleared w) = Some zeros /\
      pointer_of m (opened evalFile w) = Some zeros /\
      length zeros = Stage.sizeof (stage_of m) /\
      zero_filled zeros) /\
  (Options "SkipLoadingEval"%string = true ->
   load_eval_file fs Options evalFile w =
     Some (true,
           record_events (cleared w)
             [EvCout "info string SkipLoadingEval set to true, Net not loaded!"])) /\
  (Options "SkipLoadingEval"%string = false ->
   load_eval_file fs Options evalFile w =
     match ReadParameters (ifstream fs evalFile) (opened evalFile w) with
     | None => None
     | Some ((result, _), w') => Some (result, w')
     end) /\
  (forall result w',
      load_eval_file fs Options evalFile w = Some (result, w') ->
      (forall m, built_from_cleared m (pointer_of m w')) /\
      ((forall m, ~ In (EvDeserialize m) (skipn (length (log w)) (log w'))) ->
       forall m, pointer_of m w' =
                 Some (repeat x00 (Stage.sizeof (stage_of m))))).
Proof.
  split; [reflexivity|]. split; [reflexivity|]. split; [reflexivity|].
  assert (Hskip_path :
            Options "SkipLoadingEval"%string = true ->
            load_eval_file fs Options evalFile w =
              Some (true,
                    record_events (cleared w)
                      [EvCout "info string SkipLoadingEval set to true, Net not loaded!"])).
  { intros Hskip. unfold load_eval_file. unfold bind at 1.
    rewrite Initialize_cleared, Hskip. reflexivity. }
  pose proof (load_eval_file_unfold fs Options evalFile w) as Hread_path.
  split; [|split; [|split; [exact Hskip_path|split; [exact Hread_path|]]]].
  - destruct (Options "SkipLoadingEval"%string) eqn:Hskip.
    + rewrite Hskip_path by reflexivity.
      do 2 eexists. split; [reflexivity|]. split; discriminate.
    + rewrite Hread_path by reflexivity.
      destruct (ReadParameters_defined (ifstream fs evalFile)
                  (opened evalFile w) (allocated_opened evalFile w))
        as (r & s' & w' & E & Aw').
      rewrite E. eauto.
  - intros m. exists (repeat x00 (Stage.sizeof (stage_of m))).
    split; [now destruct m|]. split; [now destruct m|].
    split; [apply repeat_length|apply zero_filled_repeat].
  - intros result w' Hload.
    destruct (Options "SkipLoadingEval"%string) eqn:Hskip.
    + rewrite Hskip_path in Hload by reflexivity.
      injection Hload as _ <-.
      split; [intros m; left; now destruct m|].
      intros _ m. now destruct m.
    + rewrite Hread_path in Hload by reflexivity.
      destruct (ReadParameters (ifstream fs evalFile) (opened evalFile w))
        as [[[r s'] w1]|] eqn:E; [|discriminate].
      injection Hload as _ <-.
      split.
      * destruct (ReadParameters_origin _ _ (opened evalFile w) _ _
                    (repeat x00 (Stage.sizeof FeatureTransformer))
                    (repeat x00 (Stage.sizeof Network)) eq_refl eq_refl E)
          as [Oft Onet].
        intros [|]; unfold built_from_cleared; cbn [stage_of pointer_of];
          assumption.
      * intros Hnone.
        destruct (ReadParameters_cases _ _ _ _ _ E)
          as [[_ ->]|[[_ (ft' & ->)]|(ft' & net' & ->)]].
        -- intros m. now destruct m.
        -- exfalso. apply (Hnone FeatureTransformerId).
           cbn [deserialized set_pointer record_events opened log].
           rewrite <- app_assoc, skipn_app, skipn_all, Nat.sub_diag.
           cbn. auto.
        -- exfalso. apply (Hnone FeatureTransformerId).
           cbn [loaded deserialized set_pointer record_events opened log].
           rewrite <- !app_assoc, skipn_app, skipn_all, Nat.sub_diag.
           cbn. auto.
Qed.

Lemma load_eval_file_discards_prior_state_witness :
  let A := small_architecture LittleEndian in
  (* skip path: the loaded parameters are gone, both stages are zero *)
  load_eval_file small_fs (fun _ => true) "nn.nnue" small_world =
    Some (true,
          mk_world (Some [x00; x00]) (Some [x00]) "" "nn.bin"
            [EvCout "info string SkipLoadingEval set to true, Net not loaded!"]) /\
  (* failed load (second stage hash wrong): first stage read from the
     file into zeroed storage, second stage zero *)
  load_eval_file (fun _ => Some bad_stage2_file) (fun _ => false) "nn.nnue"
                 small_world =
    Some (false,
          mk_world (Some [x11; x22]) (Some [x00]) "nn.nnue" "nn.bin"
            [EvOpen "nn.nnue"; EvDeserialize FeatureTransformerId]) /\
  (forall m,
      built_from_cleared m
        (pointer_of m
           (mk_world (Some [x11; x22]) (Some [x00]) "nn.nnue" "nn.bin"
              [EvOpen "nn.nnue"; EvDeserialize FeatureTransformerId]))).
Proof.
  cbv zeta.
  destruct (load_eval_file_discards_prior_state
              (H := small_architecture LittleEndian)
              small_fs (fun _ => true) "nn.nnue" small_world None None)
    as (_ & _ & _ & _ & _ & Hskip & _).
  destruct (load_eval_file_discards_prior_state
              (H := small_architecture LittleEndian)
              (fun _ => Some bad_stage2_file) (fun _ => false) "nn.nnue"
              small_world None None)
    as (_ & _ & _ & _ & _ & _ & Hread & Hafter).
  split; [exact (Hskip eq_refl)|].
  assert (E : load_eval_file (H := small_architecture LittleEndian)
                (fun _ => Some bad_stage2_file) (fun _ => false) "nn.nnue"
                small_world =
              Some (false,
                    mk_world (Some [x11; x22]) (Some [x00]) "nn.nnue" "nn.bin"
                      [EvOpen "nn.nnue"; EvDeserialize FeatureTransformerId])).
  { rewrite (Hread eq_refl). reflexivity. }
  split; [exact E|]. exact (proj1 (Hafter _ _ E)).
Defined.

(** X16 (a file that cannot be opened).  With the skip switch off, when
    the file cannot be opened [load_eval_file] returns [false]; both stage
    objects are left allocated and zero-filled, [fileName] has already been
    set to the name that failed, and the only external call made is the
    attempt to open the file. *)
Theorem load_eval_file_missing `{Architecture}
  (fs : FileSystem) (Options : OptionsMap) (evalFile : string) (w : World) :
  Options "SkipLoadingEval"%string = false ->
  fs evalFile = None ->
  load_eval_file fs Options evalFile w = Some (false, opened evalFile w).
Proof.
  intros Hskip Hmissing. rewrite load_eval_file_unfold by assumption.
  unfold ifstream. rewrite Hmissing.
  rewrite (ReadParameters_header_failed _ _ _ _ _
             (ReadHeader_not_good (mk_istream [] false true) eq_refl)).
  reflexivity.
Qed.

Lemma load_eval_file_missing_witness :
  let A := small_architecture LittleEndian in
  small_fs "other.nnue"%string = None /\
  load_eval_file small_fs (fun _ => false) "other.nnue" small_world =
    Some (false,
          mk_world (Some [x00; x00]) (Some [x00]) "other.nnue" "nn.bin"
                   [EvOpen "other.nnue"]).
Proof.
  cbv zeta. split; [reflexivity|].
  exact (load_eval_file_missing (H := small_architecture LittleEndian)
           small_fs (fun _ => false) "other.nnue" small_world eq_refl eq_refl).
Defined.

(** X17 (what every real load does to the world).  With the skip switch
    off, [load_eval_file] always returns; whatever the result, [fileName]
    is then the name it was given, both stage pointers are non-null, and
    the log starts with the opening of the file followed by at most the
    two deserialization calls in their fixed order. *)
Theorem load_eval_file_sets_fileName `{Architecture}
  (fs : FileSystem) (Options : OptionsMap) (evalFile : string) (w : World) :
  Options "SkipLoadingEval"%string = false ->
  exists result w',
    load_eval_file fs Options evalFile w = Some (result, w') /\
    fileName w' = evalFile /\
    allocated w' /\
    exists calls,
      log w' = log w ++ EvOpen evalFile :: calls /\
      (calls = [] \/
       calls = [EvDeserialize FeatureTransformerId] \/
       calls = [EvDeserialize FeatureTransformerId; EvDeserialize NetworkId]).
Proof.
  intros Hskip. rewrite load_eval_file_unfold by assumption.
  destruct (ReadParameters_defined (ifstream fs evalFile) (opened evalFile w)
              (allocated_opened evalFile w)) as (r & s' & w' & E & Aw').
  rewrite E. exists r, w'. split; [reflexivity|].
  destruct (ReadParameters_cases _ _ _ _ _ E)
    as [[_ ->]|[[_ (ft' & ->)]|(ft' & net' & ->)]].
  - split; [reflexivity|]. split; [assumption|].
    exists []. split; [reflexivity|now left].
  - split; [reflexivity|]. split; [assumption|].
    exists [EvDeserialize FeatureTransformerId]. split.
    + cbn. now rewrite <- app_assoc.
    + right. now left.
  - split; [reflexivity|]. split; [assumption|].
    exists [EvDeserialize FeatureTransformerId; EvDeserialize NetworkId]. split.
    + cbn. now rewrite <- !app_assoc.
    + right. now right.
Qed.

Lemma load_eval_file_sets_fileName_witness :
  let A := small_architecture LittleEndian in
  exists result w',
    load_eval_file small_fs (fun _ => false) "nn.nnue" small_world =
      Some (result, w') /\
    fileName w' = "nn.nnue"%string.
Proof.
  cbv zeta.
  destruct (load_eval_file_sets_fileName (H := small_architecture LittleEndian)
              small_fs (fun _ => false) "nn.nnue" small_world eq_refl)
    as (result & w' & E & Hname & _).
  exists result, w'. split; assumption.
Defined.

(** X18 (scoring after any load).  After [load_eval_file], whatever the
    switch, the file system, the name and the result, both stage pointers
    are non-null, so a score query of either kind on any position is
    defined: a failed load never leaves the evaluator dereferencing a null
    pointer. *)
Theorem load_eval_file_then_score `{Architecture}
  (fs : FileSystem) (Options : OptionsMap) (evalFile : string) (w : World)
  (pos : Pos) (refresh : bool) :
  exists result w' outcome,
    load_eval_file fs Options evalFile w = Some (result, w') /\
    ComputeScore pos refresh w' = Some outcome.
Proof.
  assert (Hload : exists result w',
             load_eval_file fs Options evalFile w = Some (result, w') /\
             allocated w').
  { destruct (Options "SkipLoadingEval"%string) eqn:Hskip.
    - unfold load_eval_file. unfold bind at 1.
      rewrite Initialize_cleared, Hskip.
      do 2 eexists. split; [reflexivity|]. split; discriminate.
    - rewrite load_eval_file_unfold by assumption.
      destruct (ReadParameters_defined (ifstream fs evalFile)
                  (opened evalFile w) (allocated_opened evalFile w))
        as (r & s' & w' & E & Aw').
      rewrite E. eauto. }
  destruct Hload as (result & w' & E & [Aft Anet]).
  exists result, w'. rewrite ComputeScore_unfold.
  destruct (negb refresh && computed_score (accumulator pos)); [eauto|].
  destruct (feature_transformer w'); [|contradiction].
  destruct (network w'); [|contradiction].
  eauto.
Qed.

(** Reading a file laid out as [container_bytes], on a little-endian
    host, into stage objects from which the stage parts decode. *)
Lemma ReadParameters_container_bytes `{A : Architecture} `{!WellTyped A}
  (w : World) (bft bnet : list byte) (ft0 net0 ft net : storage) :
  host = LittleEndian ->
  feature_transformer w = Some ft0 ->
  network w = Some net0 ->
  (forall r, Stage.ReadParameters FeatureTransformer (istream_of (bft ++ r)) ft0 =
             (true, ft, istream_of r)) ->
  (forall r, Stage.ReadParameters Network (istream_of (bnet ++ r)) net0 =
             (true, net, istream_of r)) ->
  ReadParameters (istream_of (container_bytes bft bnet)) w =
    Some ((true, mk_istream [] true false), loaded ft net w).
Proof.
  intros Hhost Hft0 Hnet0 Rft Rnet.
  destruct (ReadHeader_header_bytes kHashValue GetArchitectureString
              (object_representation host (Stage.GetHashValue FeatureTransformer)
               ++ bft ++
               object_representation host (Stage.GetHashValue Network) ++ bnet)
              Hhost kHashValue_u32) as (arch & EH).
  unfold container_bytes.
  rewrite ReadParameters_unfold, EH, Z.eqb_refl. cbn [negb].
  rewrite Hhost. cbn [object_representation].
  pose proof (Detail_ReadParameters_block FeatureTransformerId w ft0 ft bft
                (le_encode 4 (Stage.GetHashValue Network) ++ bnet)
                Hft0 (Rft _)) as E1.
  cbn [stage_of] in E1. rewrite E1. cbn [negb].
  pose proof (Detail_ReadParameters_block NetworkId
                (deserialized FeatureTransformerId ft w) net0 net bnet []
                Hnet0 (Rnet _)) as E2.
  cbn [stage_of] in E2. rewrite app_nil_r in E2.
  rewrite E2. cbn [negb failbit istream_of]. reflexivity.
Qed.

(** X21 (save, then load from a file).  On a little-endian host, with
    symmetric stage classes and stage objects allocated at their size:
    [WriteParameters] on an empty stream succeeds, and whenever the bytes
    it wrote are what the file system holds under a name, [load_eval_file]
    of that name (skip switch off), started in any world at all, returns
    [true], leaves both stage objects equal byte for byte to the ones that
    were written, and sets [fileName] to the name. *)
Theorem save_then_load_eval_file `{A : Architecture} `{!WellTyped A}
  (Options : OptionsMap) (evalFile : string) (w : World) (ft net : storage) :
  host = LittleEndian ->
  Symmetric FeatureTransformer ->
  Symmetric Network ->
  feature_transformer w = Some ft ->
  network w = Some net ->
  length ft = Stage.sizeof FeatureTransformer ->
  length net = Stage.sizeof Network ->
  Options "SkipLoadingEval"%string = false ->
  exists bs w1,
    WriteParameters ostream_empty w = Some ((true, mk_ostream bs false), w1) /\
    forall (fs : FileSystem) (w0 : World),
      fs evalFile = Some bs ->
      exists w2,
        load_eval_file fs Options evalFile w0 = Some (true, w2) /\
        feature_transformer w2 = Some ft /\
        network w2 = Some net /\
        fileName w2 = evalFile.
Proof.
  intros Hhost Sft Snet Hft Hnet Lft Lnet Hskip.
  destruct (WriteParameters_bytes w ft net Sft Snet Hft Hnet Lft Lnet)
    as (bft & bnet & Hwrite & Rft & Rnet).
  exists (container_bytes bft bnet), (serialized w).
  split; [exact Hwrite|].
  intros fs w0 Hfile.
  rewrite load_eval_file_unfold by assumption.
  unfold ifstream. rewrite Hfile.
  rewrite (ReadParameters_container_bytes (opened evalFile w0) bft bnet
             (repeat x00 (Stage.sizeof FeatureTransformer))
             (repeat x00 (Stage.sizeof Network)) ft net
             Hhost eq_refl eq_refl
             (fun r => Rft _ r (repeat_length _ _))
             (fun r => Rnet _ r (repeat_length _ _))).
  eexists. split; [reflexivity|]. repeat split.
Qed.

Lemma save_then_load_eval_file_witness :
  let A := small_architecture LittleEndian in
  exists bs w1,
    WriteParameters ostream_empty small_world =
      Some ((true, mk_ostream bs false), w1) /\
    exists w2,
      load_eval_file (fun _ => Some bs) (fun _ => false) "saved.nnue"
                     initial_world = Some (true, w2) /\
      feature_transformer w2 = Some [x20; x03] /\
      network w2 = Some [x07] /\
      fileName w2 = "saved.nnue"%string.
Proof.
  cbv zeta.
  destruct (save_then_load_eval_file
              (A := small_architecture LittleEndian)
              (WellTyped0 := small_architecture_well_typed LittleEndian)
              (fun _ => false) "saved.nnue" small_world [x20; x03] [x07]
              eq_refl (raw_stage_symmetric _ _ _) (raw_stage_symmetric _ _ _)
              eq_refl eq_refl eq_refl eq_refl eq_refl)
    as (bs & w1 & Hwrite & Hload).
  exists bs, w1. split; [exact Hwrite|].
  exact (Hload (fun _ => Some bs) initial_world eq_refl).
Defined.

(** ** Files of another build *)

(** [ReadHeader] depends on the build through [kVersion] only. *)
Lemma ReadHeader_same_version (A B : Architecture)
  (s : istream) (architecture : list byte) :
  @kVersion A = @kVersion B ->
  @ReadHeader B s architecture = @ReadHeader A s architecture.
Proof.
  intros Ever. unfold ReadHeader. now rewrite Ever.
Qed.

(** X22 (a file written by another build is refused).  Let a build [A]
    on a little-endian host write its parameters, and let a build [B]
    whose [kVersion] or whose [kHashValue] differs from that of [A] read
    the file.  The read returns [false] and leaves the world of [B]
    untouched: none of its stages is handed a single byte of the foreign
    file. *)
Theorem foreign_file_rejected (A B : Architecture) `{!WellTyped A}
  (w wB : World) (ft net : storage) :
  @host A = LittleEndian ->
  @kVersion A <> @kVersion B \/ @kHashValue A <> @kHashValue B ->
  Symmetric (@FeatureTransformer A) ->
  Symmetric (@Network A) ->
  feature_transformer w = Some ft ->
  network w = Some net ->
  length ft = Stage.sizeof (@FeatureTransformer A) ->
  length net = Stage.sizeof (@Network A) ->
  exists bs w1 t,
    @WriteParameters A ostream_empty w = Some ((true, mk_ostream bs false), w1) /\
    @ReadParameters B (istream_of bs) wB = Some ((false, t), wB).
Proof.
  intros Hhost Hdiff Sft Snet Hft Hnet Lft Lnet.
  destruct (@WriteParameters_bytes A w ft net Sft Snet Hft Hnet Lft Lnet)
    as (bft & bnet & Hwrite & _).
  exists (@container_bytes A bft bnet), (serialized w).
  destruct (Z.eq_dec (@kVersion A) (@kVersion B)) as [Ever|Nver].
  - destruct Hdiff as [F|Nhash]; [contradiction|].
    destruct (@ReadHeader_header_bytes A _ (@kHashValue A)
                (@GetArchitectureString A)
                (object_representation (@host A)
                   (Stage.GetHashValue (@FeatureTransformer A)) ++ bft ++
                 object_representation (@host A)
                   (Stage.GetHashValue (@Network A)) ++ bnet)
                Hhost (@kHashValue_u32 A _)) as (arch & EH).
    rewrite <- (ReadHeader_same_version A B _ _ Ever) in EH.
    exists (istream_of
              (object_representation (@host A)
                 (Stage.GetHashValue (@FeatureTransformer A)) ++ bft ++
               object_representation (@host A)
                 (Stage.GetHashValue (@Network A)) ++ bnet)).
    split; [exact Hwrite|].
    unfold container_bytes. rewrite (@ReadParameters_unfold B), EH.
    apply Z.eqb_neq in Nhash. rewrite Nhash. reflexivity.
  - eexists. split; [exact Hwrite|].
    apply (@ReadParameters_wrong_version B).
    unfold container_bytes, header_bytes. cbv zeta.
    rewrite Hhost. cbn [object_representation]. rewrite <- !app_assoc.
    rewrite read_little_endian_encode by apply (@kVersion_u32 A _).
    exact Nver.
Qed.

Lemma foreign_file_rejected_witness :
  exists bs w1 t,
    @WriteParameters (small_architecture LittleEndian) ostream_empty small_world =
      Some ((true, mk_ostream bs false), w1) /\
    @ReadParameters wide_architecture (istream_of bs) initial_world =
      Some ((false, t), initial_world).
Proof.
  apply (foreign_file_rejected
           (small_architecture LittleEndian) wide_architecture
           (WellTyped0 := small_architecture_well_typed LittleEndian)
           small_world initial_world [x20; x03] [x07]).
  - reflexivity.
  - right. vm_compute. discriminate.
  - apply raw_stage_symmetric.
  - apply raw_stage_symmetric.
  - reflexivity.
  - reflexivity.
  - reflexivity.
  - reflexivity.
Defined.
